(** * Result Explorer of the ServiceNow stale-ownership scanner

    A shallow embedding of the view-derivation logic of the
    [ServiceNowScanner] React component (the variant with risk filter,
    pagination and grouped view): the hooks [scanResults], [expandedCI],
    [showGroupedView], [currentPage], [itemsPerPage], [expandedAlternates]
    and [activeFilter], the helpers [getPaginatedCIs], [getFilteredCIs],
    [getTotalPages], [setFilter], [goToPage], [goToNextPage],
    [goToPrevPage], [toggleCIExpansion], [toggleAlternateRecommendations],
    the effect on [scanResults], and the branch structure of the
    "Scan Results" part of the JSX.

    Numbers are [Z] (page numbers and array lengths are integers far below
    2^53, where JavaScript's doubles are exact), strings are [string],
    the [Set] of CI ids is a [gset string], and a JSON field that the code
    probes dynamically is a [Field]. *)

From stdpp Require Import base gmap sets list strings.
From Stdlib Require Import ZArith Lia Ascii.

Local Open Scope Z_scope.

(** ** JavaScript values and built-ins used by the component *)

Module Js.

(** A JSON value that is not an array. [JsObj] is any plain object. *)
Inductive Scalar :=
| JsNull
| JsBool (b : bool)
| JsNum (n : Z)
| JsStr (s : string)
| JsObj.

(** A field of a payload object: absent ([undefined]), a non-array value,
    or an array. *)
Inductive Field (A : Type) :=
| Missing
| Other (v : Scalar)
| Arr (items : list A).
Arguments Missing {A}.
Arguments Other {A} v.
Arguments Arr {A} items.

Definition truthyStr (s : string) : bool := negb (String.eqb s "").

Definition truthyScalar (v : Scalar) : bool :=
  match v with
  | JsNull => false
  | JsBool b => b
  | JsNum n => negb (n =? 0)
  | JsStr s => truthyStr s
  | JsObj => true
  end.

(** [!!f] *)
Definition truthy {A} (f : Field A) : bool :=
  match f with
  | Missing => false
  | Other v => truthyScalar v
  | Arr _ => true
  end.

(** [Array.isArray(f)] *)
Definition isArray {A} (f : Field A) : bool :=
  match f with Arr _ => true | _ => false end.

(** [f.length > 0]: arrays and strings have a length, on anything else
    the property is [undefined] and the comparison is false. *)
Definition lengthPositive {A} (f : Field A) : bool :=
  match f with
  | Arr items => 0 <? Z.of_nat (length items)
  | Other (JsStr s) => truthyStr s
  | _ => false
  end.

(** [o || d] on an optional number. *)
Definition orDefault (o : option Z) (d : Z) : Z :=
  match o with
  | Some n => if n =? 0 then d else n
  | None => d
  end.

(** [Array.prototype.slice]: a negative index counts from the end, an
    index past the end is cut to the length, and an empty or inverted
    range gives the empty array. *)
Definition relativeIndex (len k : Z) : Z :=
  if k <? 0 then Z.max (len + k) 0 else Z.min k len.

Definition slice {A} (l : list A) (start finish : Z) : list A :=
  let len := Z.of_nat (length l) in
  let k := relativeIndex len start in
  let final := relativeIndex len finish in
  take (Z.to_nat (final - k)) (drop (Z.to_nat k) l).

(** [Math.ceil(a / b)] for integers [a >= 0], [b > 0]. *)
Definition ceilDiv (a b : Z) : Z := (a + b - 1) / b.

(** [String.prototype.toLowerCase] on the letters A-Z. Every other
    character is kept; the four risk keys are plain ASCII without [k], so
    no character outside ASCII can fold onto one of them. *)
Definition isUpper (c : ascii) : bool :=
  let n := nat_of_ascii c in ((65 <=? n) && (n <=? 90))%nat.

Definition lowerChar (c : ascii) : ascii :=
  if isUpper c then ascii_of_nat (nat_of_ascii c + 32) else c.

Fixpoint toLowerCase (s : string) : string :=
  match s with
  | EmptyString => EmptyString
  | String c s' => String (lowerChar c) (toLowerCase s')
  end.

End Js.

Import Js.

(** ** The scan payload *)

Record Owner := {
  username : string;
  display_name : string;
  score : Z;
  department : option string
}.

Record CI := {
  ci_id : string;
  ci_name : string;
  ci_class : string;
  current_owner : string;
  risk_level : option string;
  recommended_owners : list Owner
}.

(** One entry of [grouped_by_owners], as sent by the analysis service.
    An entry is taken to be complete: the grouped view reads the owner,
    the counts and the members of every group without a check. *)
Record OwnerGroup := {
  group_username : string;
  recommended_owner : Owner;
  total_cis : Z;
  cis_to_assign : list CI
}.

Record Summary := {
  total_cis_analyzed : option Z;
  stale_cis_found : option Z;
  critical_risk : option Z;
  high_risk : option Z;
  recommended_owners_count : option Z
}.

Record ScanResults := {
  error : option string;
  summary : option Summary;
  stale_cis : Field CI;
  grouped_by_owners : Field OwnerGroup
}.

(** ** Component state *)

Record State := {
  scanResults : option ScanResults;
  expandedCI : option string;
  showGroupedView : bool;
  currentPage : Z;
  expandedAlternates : gset string;
  activeFilter : string
}.

Definition itemsPerPage : Z := 50.

Definition initialState : State :=
  {| scanResults := None; expandedCI := None; showGroupedView := false;
     currentPage := 1; expandedAlternates := ∅; activeFilter := "all" |}.

(** The filter cards and the hook's comment name five filters. *)
Inductive FilterCategory := All | Critical | High | Medium | Low.

Definition filterKey (c : FilterCategory) : string :=
  match c with
  | All => "all"
  | Critical => "critical"
  | High => "high"
  | Medium => "medium"
  | Low => "low"
  end.

(** The risk level as the payload spells it. *)
Definition categoryName (c : FilterCategory) : string :=
  match c with
  | All => "All"
  | Critical => "Critical"
  | High => "High"
  | Medium => "Medium"
  | Low => "Low"
  end.

(** ** Filtering and pagination *)

(** The local [riskLevel] of the filter callback; [risk_level] is a string
    when the payload has it. *)
Definition riskKey (ci : CI) : string :=
  match risk_level ci with
  | Some s => if truthyStr s then toLowerCase s else ""
  | None => ""
  end.

Definition getFilteredCIs (st : State) : list CI :=
  match scanResults st with
  | None => []
  | Some r =>
      if negb (truthy (stale_cis r)) || negb (isArray (stale_cis r)) then []
      else
        match stale_cis r with
        | Arr cis =>
            if String.eqb (activeFilter st) "all" then cis
            else List.filter (fun ci => String.eqb (riskKey ci) (activeFilter st)) cis
        | _ => []
        end
  end.

Definition getPaginatedCIs (st : State) : list CI :=
  let filteredCIs := getFilteredCIs st in
  let startIndex := (currentPage st - 1) * itemsPerPage in
  let endIndex := startIndex + itemsPerPage in
  slice filteredCIs startIndex endIndex.

Definition getTotalPages (st : State) : Z :=
  let filteredCIs := getFilteredCIs st in
  if Z.of_nat (length filteredCIs) =? 0 then 0
  else ceilDiv (Z.of_nat (length filteredCIs)) itemsPerPage.

(** ** State setters (one per hook) *)

Definition setScanResults (r : option ScanResults) (st : State) : State :=
  {| scanResults := r; expandedCI := expandedCI st;
     showGroupedView := showGroupedView st; currentPage := currentPage st;
     expandedAlternates := expandedAlternates st; activeFilter := activeFilter st |}.

Definition setExpandedCI (e : option string) (st : State) : State :=
  {| scanResults := scanResults st; expandedCI := e;
     showGroupedView := showGroupedView st; currentPage := currentPage st;
     expandedAlternates := expandedAlternates st; activeFilter := activeFilter st |}.

Definition setShowGroupedView (b : bool) (st : State) : State :=
  {| scanResults := scanResults st; expandedCI := expandedCI st;
     showGroupedView := b; currentPage := currentPage st;
     expandedAlternates := expandedAlternates st; activeFilter := activeFilter st |}.

Definition setCurrentPage (p : Z) (st : State) : State :=
  {| scanResults := scanResults st; expandedCI := expandedCI st;
     showGroupedView := showGroupedView st; currentPage := p;
     expandedAlternates := expandedAlternates st; activeFilter := activeFilter st |}.

Definition setExpandedAlternates (s : gset string) (st : State) : State :=
  {| scanResults := scanResults st; expandedCI := expandedCI st;
     showGroupedView := showGroupedView st; currentPage := currentPage st;
     expandedAlternates := s; activeFilter := activeFilter st |}.

Definition setActiveFilter (f : string) (st : State) : State :=
  {| scanResults := scanResults st; expandedCI := expandedCI st;
     showGroupedView := showGroupedView st; currentPage := currentPage st;
     expandedAlternates := expandedAlternates st; activeFilter := f |}.

(** ** Event handlers *)

Definition toggleCIExpansion (ciId : string) (st : State) : State :=
  setExpandedCI
    (if decide (expandedCI st = Some ciId) then None else Some ciId) st.

Definition setFilter (filter : string) (st : State) : State :=
  setExpandedAlternates ∅
    (setExpandedCI None (setCurrentPage 1 (setActiveFilter filter st))).

Definition goToPage (page : Z) (st : State) : State :=
  setExpandedCI None (setCurrentPage page st).

Definition goToNextPage (st : State) : State :=
  if currentPage st <? getTotalPages st then goToPage (currentPage st + 1) st
  else st.

Definition goToPrevPage (st : State) : State :=
  if 1 <? currentPage st then goToPage (currentPage st - 1) st
  else st.

Definition toggleAlternateRecommendations (ciId : string) (st : State) : State :=
  let newExpanded := expandedAlternates st in
  setExpandedAlternates
    (if decide (ciId ∈ newExpanded) then newExpanded ∖ {[ ciId ]}
     else newExpanded ∪ {[ ciId ]}) st.

(** The three page-navigation handlers behind the pagination buttons. *)
Inductive Navigation :=
| GoToPage (n : Z)
| NextPage
| PrevPage.

Definition navigate (op : Navigation) (st : State) : State :=
  match op with
  | GoToPage n => goToPage n st
  | NextPage => goToNextPage st
  | PrevPage => goToPrevPage st
  end.

(** ** Installing a scan result *)

(** Body of the effect that depends on [scanResults]. *)
Definition scanResultsEffect (st : State) : State :=
  setActiveFilter "all"
    (setExpandedAlternates ∅ (setExpandedCI None (setCurrentPage 1 st))).

(** [setScanResults(obj)] with a freshly built object: the dependency
    changed, so the effect runs after the render. *)
Definition installResults (r : ScanResults) (st : State) : State :=
  scanResultsEffect (setScanResults (Some r) st).

(** [setScanResults(null)]: the effect runs only if there was a result. *)
Definition clearResults (st : State) : State :=
  match scanResults st with
  | None => st
  | Some _ => scanResultsEffect (setScanResults None st)
  end.

Definition errorPayload (msg : string) : ScanResults :=
  {| error := Some msg; summary := None; stale_cis := Missing;
     grouped_by_owners := Missing |}.

(** What the fetch of [/scan-stale-ownership] came back with. *)
Inductive ScanResponse :=
| ResponseOk (results : ScanResults)
| ResponseFailed (errorField : option string)
| NetworkFailure.

Definition responsePayload (resp : ScanResponse) : ScanResults :=
  match resp with
  | ResponseOk results => results
  | ResponseFailed (Some msg) =>
      errorPayload (if truthyStr msg then msg else "Scan failed. Please try again.")
  | ResponseFailed None => errorPayload "Scan failed. Please try again."
  | NetworkFailure => errorPayload "Network error during scan. Please try again."
  end.

(** [scanStaleOwnership]; [connected] is [connectionStatus?.success]. *)
Definition scanStaleOwnership (connected : bool) (resp : ScanResponse)
    (st : State) : State :=
  if negb connected then st
  else installResults (responsePayload resp) (setExpandedCI None (clearResults st)).

(** ** What the "Scan Results" block renders *)

Record ResultsPanel := {
  summaryCards : list (string * Z);
  groupedToggle : bool;
  staleList : option (list CI);
  paginationControls : bool;
  groupedGroups : option (list OwnerGroup)
}.

Inductive ResultsView :=
| NoResults
| ErrorCard (msg : string)
| Panel (p : ResultsPanel).

Definition summaryValue (r : ScanResults) (f : Summary -> option Z) : Z :=
  match summary r with
  | Some s => orDefault (f s) 0
  | None => 0
  end.

Definition fieldItems {A} (f : Field A) : list A :=
  match f with Arr items => items | _ => [] end.

Definition hasGroups (r : ScanResults) : bool :=
  truthy (grouped_by_owners r) && isArray (grouped_by_owners r)
  && lengthPositive (grouped_by_owners r).

Definition renderPanel (st : State) (r : ScanResults) : ResultsPanel :=
  {| summaryCards :=
       [ ("Total CIs", summaryValue r total_cis_analyzed);
         ("Stale Found", summaryValue r stale_cis_found);
         ("Critical Risk", summaryValue r critical_risk);
         ("High Risk", summaryValue r high_risk);
         ("Recommended Owners", summaryValue r recommended_owners_count) ];
     groupedToggle := hasGroups r;
     staleList :=
       if truthy (stale_cis r) && lengthPositive (stale_cis r)
       then Some (getPaginatedCIs st) else None;
     paginationControls := itemsPerPage <? Z.of_nat (length (getFilteredCIs st));
     groupedGroups :=
       if hasGroups r && showGroupedView st
       then Some (fieldItems (grouped_by_owners r)) else None |}.

Definition renderResults (st : State) : ResultsView :=
  match scanResults st with
  | None => NoResults
  | Some r =>
      match error r with
      | Some msg => if truthyStr msg then ErrorCard msg else Panel (renderPanel st r)
      | None => Panel (renderPanel st r)
      end
  end.

(** The owner groups on screen. *)
Definition displayedGroups (st : State) : list OwnerGroup :=
  match renderResults st with
  | Panel p => default [] (groupedGroups p)
  | _ => []
  end.

Definition sumTotalCis (gs : list OwnerGroup) : Z :=
  foldr (fun g acc => total_cis g + acc) 0 gs.

Definition hasRecommendation (ci : CI) : bool :=
  match recommended_owners ci with [] => false | _ :: _ => true end.

(** A page of a sequence, as [getPaginatedCIs] cuts it. *)
Definition pageOf {A} (items : list A) (page : Z) : list A :=
  slice items ((page - 1) * itemsPerPage) ((page - 1) * itemsPerPage + itemsPerPage).

(** ** Reference notions the properties are stated against *)

(** Equality of two strings up to the case of their letters. *)
Fixpoint equalIgnoringCase (a b : string) : bool :=
  match a, b with
  | EmptyString, EmptyString => true
  | String x a', String y b' =>
      Ascii.eqb (lowerChar x) (lowerChar y) && equalIgnoringCase a' b'
  | _, _ => false
  end.

Definition matchesCategory (c : FilterCategory) (ci : CI) : bool :=
  match risk_level ci with
  | Some s => equalIgnoringCase s (categoryName c)
  | None => false
  end.

Definition knownRisk (ci : CI) : bool :=
  existsb (fun c => matchesCategory c ci) [Critical; High; Medium; Low].

(** ** Sample data *)

Definition alice : Owner :=
  {| username := "alice"; display_name := "Alice"; score := 90;
     department := Some "IT" |}.

Definition bob : Owner :=
  {| username := "bob"; display_name := "Bob"; score := 70;
     department := None |}.

Definition sampleCI (id : string) (risk : option string) (owners : list Owner) : CI :=
  {| ci_id := id; ci_name := id; ci_class := "cmdb_ci_server";
     current_owner := "carol"; risk_level := risk;
     recommended_owners := owners |}.

Definition webCI : CI := sampleCI "ci-web" (Some "Critical") [alice; bob].
Definition dbCI : CI := sampleCI "ci-db" (Some "MEDIUM") [alice].
Definition mailCI : CI := sampleCI "ci-mail" (Some "high") [bob].
Definition orphanCI : CI := sampleCI "ci-orphan" None [].

Definition resultsOf (cis : list CI) (groups : Field OwnerGroup) : ScanResults :=
  {| error := None; summary := None; stale_cis := Arr cis;
     grouped_by_owners := groups |}.

Definition stateOf (r : ScanResults) (filter : string) (page : Z) : State :=
  {| scanResults := Some r; expandedCI := None; showGroupedView := true;
     currentPage := page; expandedAlternates := ∅; activeFilter := filter |}.

Definition fourCIs : list CI := [webCI; orphanCI; dbCI; mailCI].

(** Exactly fifty stale CIs. *)
Definition fiftyCIs : list CI := repeat webCI 50.

(** One hundred and twenty stale CIs: 30 critical, 40 high, 30 medium, 20 low. *)
Definition mixedCIs : list CI :=
  repeat webCI 30 ++ repeat mailCI 40 ++ repeat dbCI 30
  ++ repeat (sampleCI "ci-low" (Some "Low") []) 20.

Definition fiftyOnPageTwo : State := stateOf (resultsOf fiftyCIs Missing) "all" 2.

Definition fourOnHigh : State := stateOf (resultsOf fourCIs Missing) "high" 1.

Definition mixedOnLastPage : State := stateOf (resultsOf mixedCIs Missing) "all" 3.

(** A session with results on screen, the first CI expanded and its
    alternate recommendations open. *)
Definition selectedOnPageOne : State :=
  toggleAlternateRecommendations "ci-web"
    (toggleCIExpansion "ci-web"
       (installResults (resultsOf mixedCIs Missing) initialState)).

Definition emptyErrorWithCIs : ScanResults :=
  {| error := Some ""; summary := None; stale_cis := Arr fourCIs;
     grouped_by_owners := Missing |}.

Definition fourWithoutGroups : State := stateOf (resultsOf fourCIs Missing) "all" 1.

Definition misgrouped : OwnerGroup :=
  {| group_username := "alice"; recommended_owner := alice; total_cis := 7;
     cis_to_assign := [orphanCI] |}.

Definition fourMisgrouped : State :=
  stateOf (resultsOf fourCIs (Arr [misgrouped])) "all" 1.

(** ** Pagination bar *)

(** Label of the [i]-th numbered page button ([i] counts from 0). *)
Definition pageNum (st : State) (i : Z) : Z :=
  if getTotalPages st <=? 5 then i + 1
  else if currentPage st <=? 3 then i + 1
  else if getTotalPages st - 2 <=? currentPage st then getTotalPages st - 4 + i
  else currentPage st - 2 + i.

(** [Array.from({ length: Math.min(5, getTotalPages()) }, ...)] behind the
    guard [getTotalPages() > 0]. *)
Definition pageButtons (st : State) : list Z :=
  if 0 <? getTotalPages st
  then pageNum st <$> seqZ 0 (Z.min 5 (getTotalPages st))
  else [].

(** The shortcut to the last page after the dots. *)
Definition lastPageButton (st : State) : option Z :=
  if (5 <? getTotalPages st) && (currentPage st <? getTotalPages st - 2)
  then Some (getTotalPages st) else None.

Definition prevDisabled (st : State) : bool := currentPage st =? 1.

Definition nextDisabled (st : State) : bool := currentPage st =? getTotalPages st.

(** The two numbers of "Showing X to Y of Z". *)
Definition showingFrom (st : State) : Z := (currentPage st - 1) * itemsPerPage + 1.

Definition showingTo (st : State) : Z :=
  Z.min (currentPage st * itemsPerPage) (Z.of_nat (length (getFilteredCIs st))).

(** ** Risk styling *)

Inductive Icon := AlertTriangle | AlertCircle | Clock | Shield.

Definition getRiskColor (riskLevel : option string) : string :=
  match riskLevel with
  | Some s =>
      if String.eqb s "Critical" then "text-red-400 bg-red-500/20 border-red-500/30"
      else if String.eqb s "High" then "text-orange-400 bg-orange-500/20 border-orange-500/30"
      else if String.eqb s "Medium" then "text-yellow-400 bg-yellow-500/20 border-yellow-500/30"
      else "text-green-400 bg-green-500/20 border-green-500/30"
  | None => "text-green-400 bg-green-500/20 border-green-500/30"
  end.

Definition getRiskIcon (riskLevel : option string) : Icon :=
  match riskLevel with
  | Some s =>
      if String.eqb s "Critical" then AlertTriangle
      else if String.eqb s "High" then AlertCircle
      else if String.eqb s "Medium" then Clock
      else Shield
  | None => Shield
  end.

(** ** Text formatting *)

Definition isLower (c : ascii) : bool :=
  let n := nat_of_ascii c in ((97 <=? n) && (n <=? 122))%nat.

Definition isDigit (c : ascii) : bool :=
  let n := nat_of_ascii c in ((48 <=? n) && (n <=? 57))%nat.

(** [toUpperCase] on one character of the class [\w]. *)
Definition upperChar (c : ascii) : ascii :=
  if isLower c then ascii_of_nat (nat_of_ascii c - 32) else c.

(** The class [\w] of a regular expression without the [u] flag. *)
Definition isWordChar (c : ascii) : bool :=
  isUpper c || isLower c || isDigit c || Ascii.eqb c "_".

Fixpoint mapChars (f : ascii → ascii) (s : string) : string :=
  match s with
  | EmptyString => EmptyString
  | String c s' => String (f c) (mapChars f s')
  end.

(** [.replace(/_/g, ' ')] *)
Definition underscoreToSpace (c : ascii) : ascii :=
  if Ascii.eqb c "_" then " "%char else c.

(** [.replace(/\b\w/g, l => l.toUpperCase())]: a word character is at a
    word boundary when the character before it, if any, is not one. *)
Fixpoint capitalizeWords (afterWordChar : bool) (s : string) : string :=
  match s with
  | EmptyString => EmptyString
  | String c s' =>
      String (if isWordChar c && negb afterWordChar then upperChar c else c)
             (capitalizeWords (isWordChar c) s')
  end.

(** How a [rule_name] is shown among the staleness reasons. *)
Definition formatRuleName (rule_name : string) : string :=
  capitalizeWords false (mapChars underscoreToSpace rule_name).

(** ** Owner cards of an expanded row *)

Inductive OwnerCard :=
| TopMatch (o : Owner)
| Alternate (rank : Z) (o : Owner)
| CurrentOwner (name : string).

(** The cards under "Recommended New Owners"; [None] is the note that no
    suitable owner was found. *)
Definition ownerCards (alternatesOpen : bool) (ci : CI) : option (list OwnerCard) :=
  match recommended_owners ci with
  | [] => None
  | first :: _ =>
      let owners := recommended_owners ci in
      let n := Z.of_nat (length owners) in
      Some (TopMatch first ::
            (if alternatesOpen && (1 <=? n)
             then (if 1 <? n
                   then imap (fun ownerIdx owner => Alternate (Z.of_nat ownerIdx + 2) owner)
                             (slice owners 1 n)
                   else [])
                  ++ (if n =? 1 then [CurrentOwner (current_owner ci)] else [])
             else []))
  end.

Definition cardOwner (card : OwnerCard) : option Owner :=
  match card with
  | TopMatch o => Some o
  | Alternate _ o => Some o
  | CurrentOwner _ => None
  end.

Definition cardRank (card : OwnerCard) : option Z :=
  match card with
  | TopMatch _ => Some 1
  | Alternate rank _ => Some rank
  | CurrentOwner _ => None
  end.

(** The older variant of the component shows the first three candidates
    and counts the others. *)
Definition topThree (ci : CI) : list Owner := slice (recommended_owners ci) 0 3.

Definition moreRecommendations (ci : CI) : option Z :=
  let n := Z.of_nat (length (recommended_owners ci)) in
  if 3 <? n then Some (n - 3) else None.

(** ** Connection form *)

Record ConnectionStatus := {
  success : bool;
  message : option string
}.

Record ConnectionRequest := {
  instance_url : string;
  body_username : string;
  body_password : string
}.

(** What the fetch of [/test-connection] came back with: the [ok] flag of
    the response with [result.success], [result.message], [result.error],
    or an exception. *)
Inductive TestResponse :=
| TestAnswered (ok resultSuccess : bool) (resultMessage resultError : option string)
| TestNetworkFailure.

Definition emptyForm : gmap string string :=
  <["instanceUrl" := ""]> (<["username" := ""]> (<["password" := ""]> ∅)).

(** [setFormData(prev => ({ ...prev, [name]: value }))] *)
Definition handleInputChange (name value : string)
    (formData : gmap string string) : gmap string string :=
  <[name := value]> formData.

(** [!!formData[name]] *)
Definition filled (formData : gmap string string) (name : string) : bool :=
  match formData !! name with
  | Some v => truthyStr v
  | None => false
  end.

Definition requestBody (formData : gmap string string) : ConnectionRequest :=
  {| instance_url := default "" (formData !! "instanceUrl");
     body_username := default "" (formData !! "username");
     body_password := default "" (formData !! "password") |}.

(** [e || d] on an optional string. *)
Definition orDefaultStr (e : option string) (d : string) : string :=
  match e with
  | Some s => if truthyStr s then s else d
  | None => d
  end.

(** [testConnection]: the request it sends, if any, and the status it
    leaves in [connectionStatus]. *)
Definition testConnection (formData : gmap string string) (resp : TestResponse)
    : option ConnectionRequest * ConnectionStatus :=
  if negb (filled formData "instanceUrl") || negb (filled formData "username")
     || negb (filled formData "password")
  then (None, {| success := false; message := Some "Please fill in all fields" |})
  else
    (Some (requestBody formData),
     match resp with
     | TestAnswered ok resultSuccess resultMessage resultError =>
         if ok && resultSuccess
         then {| success := true; message := resultMessage |}
         else {| success := false;
                 message := Some (orDefaultStr resultError
                                    "Connection failed. Please check your credentials.") |}
     | TestNetworkFailure =>
         {| success := false; message := Some "Network error. Please try again." |}
     end).

(** The updater of the simulated progress. *)
Definition progressTick (prev : Z) : Z :=
  if 90 <=? prev then 90 else prev + 15.

(** ** The whole component as a transition system *)

Record Session := {
  formData : gmap string string;
  connectionStatus : option ConnectionStatus;
  isScanning : bool;
  scanProgress : Z;
  view : State
}.

Definition initialSession : Session :=
  {| formData := emptyForm; connectionStatus := None; isScanning := false;
     scanProgress := 0; view := initialState |}.

(** [connectionStatus?.success] *)
Definition connected (s : Session) : bool :=
  match connectionStatus s with
  | Some status => success status
  | None => false
  end.

Definition withView (v : State) (s : Session) : Session :=
  {| formData := formData s; connectionStatus := connectionStatus s;
     isScanning := isScanning s; scanProgress := scanProgress s; view := v |}.

(** What the user, the timer and the network can do. A row or a button
    is named by what the JSX puts on it. [FinishScan NetworkFailure] is a
    fetch that threw, [FinishScanUnreadable] a response whose body did not
    parse (the progress is already 100 then). The interval of a scan that
    failed on the network is never cleared, so a tick can come at any
    time. The rows are keyed by [ci_id]: when the stale CIs repeat an id,
    rows of an earlier render can stay on the page, and a click on such a
    row or on its alternates button ([ClickStaleRow], [ClickStaleAlternates])
    runs the handler of that render, which still sees the [expandedCI] or
    the [expandedAlternates] of then. *)
Inductive Event :=
| InputChange (name value : string)
| TestConnection (resp : TestResponse)
| StartScan
| ProgressTick
| FinishScan (resp : ScanResponse)
| FinishScanUnreadable
| ClickCard (title : string)
| ClearFilter
| ToggleGroupedView
| ClickRow (ciId : string)
| ClickAlternates (ciId : string)
| ClickStaleRow (ciId : string) (expandedThen : option string)
| ClickStaleAlternates (ciId : string) (alternatesThen : gset string)
| ClickPrev
| ClickNext
| ClickPageButton (i : nat)
| ClickLastPage.

(** The [filter] of a summary card; the cards that are not clickable
    have none. *)
Definition cardFilter (title : string) : option string :=
  if String.eqb title "Stale Found" then Some "all"
  else if String.eqb title "Critical Risk" then Some "critical"
  else if String.eqb title "High Risk" then Some "high"
  else None.

Definition panelOf (st : State) : option ResultsPanel :=
  match renderResults st with
  | Panel p => Some p
  | _ => None
  end.

(** The stale CIs of the result in hand. *)
Definition staleItems (st : State) : list CI :=
  match scanResults st with
  | Some r => fieldItems (stale_cis r)
  | None => []
  end.

(** The keys of the rows are pairwise distinct whatever page and filter
    are rendered. *)
Definition uniqueIds (st : State) : Prop := NoDup (ci_id <$> staleItems st).

(** The rows of the stale-CI list that the current render puts on the
    page. *)
Definition rowsShown (st : State) : list CI :=
  match panelOf st with
  | Some p => default [] (staleList p)
  | None => []
  end.

Definition controlsShown (st : State) : bool :=
  match panelOf st with
  | Some p => paginationControls p
  | None => false
  end.

Definition toggleShown (st : State) : bool :=
  match panelOf st with
  | Some p => groupedToggle p
  | None => false
  end.

(** The button of the alternates is inside the expanded row of a CI that
    has a recommendation. *)
Definition alternatesButtonShown (ciId : string) (st : State) : bool :=
  bool_decide (expandedCI st = Some ciId)
  && existsb (fun ci => String.eqb (ci_id ci) ciId && hasRecommendation ci)
             (rowsShown st).

(** An event on the result view; an element that is not rendered, or a
    disabled button, takes no click. Rows left over from an earlier render
    exist only in a rendered panel whose stale CIs repeat an id. *)
Definition viewStep (e : Event) (st : State) : State :=
  match e with
  | ClickCard title =>
      match panelOf st, cardFilter title with
      | Some _, Some filter => setFilter filter st
      | _, _ => st
      end
  | ClearFilter =>
      match panelOf st with
      | Some _ => if String.eqb (activeFilter st) "all" then st else setFilter "all" st
      | None => st
      end
  | ToggleGroupedView =>
      if toggleShown st then setShowGroupedView (negb (showGroupedView st)) st else st
  | ClickRow ciId =>
      if existsb (fun ci => String.eqb (ci_id ci) ciId) (rowsShown st)
      then toggleCIExpansion ciId st else st
  | ClickAlternates ciId =>
      if alternatesButtonShown ciId st then toggleAlternateRecommendations ciId st
      else st
  | ClickStaleRow ciId expandedThen =>
      match panelOf st with
      | Some _ =>
          if bool_decide (uniqueIds st) then st
          else setExpandedCI (expandedCI
                                (toggleCIExpansion ciId (setExpandedCI expandedThen st))) st
      | None => st
      end
  | ClickStaleAlternates ciId alternatesThen =>
      match panelOf st with
      | Some _ =>
          if bool_decide (uniqueIds st) then st
          else setExpandedAlternates
                 (expandedAlternates
                    (toggleAlternateRecommendations ciId
                       (setExpandedAlternates alternatesThen st))) st
      | None => st
      end
  | ClickPrev =>
      if controlsShown st && negb (prevDisabled st) then goToPrevPage st else st
  | ClickNext =>
      if controlsShown st && negb (nextDisabled st) then goToNextPage st else st
  | ClickPageButton i =>
      match pageButtons st !! i with
      | Some page => if controlsShown st then goToPage page st else st
      | None => st
      end
  | ClickLastPage =>
      match lastPageButton st with
      | Some page => if controlsShown st then goToPage page st else st
      | None => st
      end
  | _ => st
  end.

(** An event on the whole component. The scan button is disabled while
    a scan runs and without a successful connection; the answer of a scan
    comes only to a scan that runs. *)
Definition step (e : Event) (s : Session) : Session :=
  match e with
  | InputChange name value =>
      {| formData := handleInputChange name value (formData s);
         connectionStatus := connectionStatus s; isScanning := isScanning s;
         scanProgress := scanProgress s; view := view s |}
  | TestConnection resp =>
      {| formData := formData s;
         connectionStatus := Some (snd (testConnection (formData s) resp));
         isScanning := isScanning s; scanProgress := scanProgress s;
         view := view s |}
  | StartScan =>
      if isScanning s || negb (connected s) then s
      else {| formData := formData s; connectionStatus := connectionStatus s;
              isScanning := true; scanProgress := 0;
              view := setExpandedCI None (clearResults (view s)) |}
  | ProgressTick =>
      {| formData := formData s; connectionStatus := connectionStatus s;
         isScanning := isScanning s; scanProgress := progressTick (scanProgress s);
         view := view s |}
  | FinishScan resp =>
      if isScanning s
      then {| formData := formData s; connectionStatus := connectionStatus s;
              isScanning := false;
              scanProgress :=
                match resp with
                | NetworkFailure => scanProgress s
                | _ => 100
                end;
              view := installResults (responsePayload resp) (view s) |}
      else s
  | FinishScanUnreadable =>
      if isScanning s
      then {| formData := formData s; connectionStatus := connectionStatus s;
              isScanning := false; scanProgress := 100;
              view := installResults (responsePayload NetworkFailure) (view s) |}
      else s
  | _ => withView (viewStep e (view s)) s
  end.

Definition run (events : list Event) (s : Session) : Session :=
  foldl (fun acc e => step e acc) s events.

(** A test of the connection that the service accepted. *)
Definition acceptedTest (e : Event) : bool :=
  match e with
  | TestConnection (TestAnswered ok resultSuccess _ _) => ok && resultSuccess
  | _ => false
  end.

(** ** Invariants of the sessions that can be reached *)

Definition pageInRange (st : State) : Prop :=
  1 ≤ currentPage st ∧ (currentPage st = 1 ∨ currentPage st ≤ getTotalPages st).

Definition filterFromCard (st : State) : Prop :=
  activeFilter st ∈ ["all"; "critical"; "high"].

Definition expandedOnPage (st : State) : Prop :=
  ∀ ciId, expandedCI st = Some ciId → ciId ∈ ci_id <$> getPaginatedCIs st.

Definition alternatesListed (st : State) : Prop :=
  ∀ ciId, ciId ∈ expandedAlternates st → ciId ∈ ci_id <$> getFilteredCIs st.

(** Page and filter are kept in range by every event; the selection is
    tied to the rows when the keys of the rows are distinct. *)
Definition viewInvariant (st : State) : Prop :=
  pageInRange st ∧ filterFromCard st
  ∧ (uniqueIds st → expandedOnPage st ∧ alternatesListed st).

Definition progressInRange (s : Session) : Prop :=
  scanProgress s = 100 ∨ (0 ≤ scanProgress s ≤ 90 ∧ (15 | scanProgress s)).

Definition sessionInvariant (s : Session) : Prop :=
  viewInvariant (view s) ∧ progressInRange s.

(** No accepted connection test so far: not connected, no scan running,
    no result. *)
Definition neverConnected (s : Session) : Prop :=
  connected s = false ∧ isScanning s = false ∧ scanResults (view s) = None.

(** Typing the three credentials into the form. *)
Definition typeCredentials (url user password : string) : list Event :=
  [InputChange "instanceUrl" url; InputChange "username" user;
   InputChange "password" password].

(** A session: connect, scan 120 stale CIs, expand the first row and open
    its alternates. *)
Definition sampleEvents : list Event :=
  typeCredentials "https://dev.service-now.com" "admin" "secret"
  ++ [TestConnection (TestAnswered true true (Some "Connected") None);
      StartScan; ProgressTick;
      FinishScan (ResponseOk (resultsOf mixedCIs Missing));
      ClickRow "ci-web"; ClickAlternates "ci-web"; ClickNext; ClickRow "ci-mail"].

(** A session on four stale CIs with distinct ids: the first row is
    expanded, its alternates are opened, then the list is narrowed to
    critical risk and the row expanded again. *)
Definition distinctEvents : list Event :=
  typeCredentials "https://dev.service-now.com" "admin" "secret"
  ++ [TestConnection (TestAnswered true true (Some "Connected") None);
      StartScan; FinishScan (ResponseOk (resultsOf fourCIs Missing));
      ClickRow "ci-web"; ClickAlternates "ci-web";
      ClickCard "Critical Risk"; ClickRow "ci-web"; ClickAlternates "ci-web"].

(** The same clicks without a connection that was accepted. *)
Definition refusedEvents : list Event :=
  typeCredentials "https://dev.service-now.com" "admin" "wrong"
  ++ [TestConnection (TestAnswered true false None (Some "Invalid credentials"));
      StartScan; FinishScan (ResponseOk (resultsOf mixedCIs Missing));
      TestConnection TestNetworkFailure; StartScan; ClickRow "ci-web"].

(** ** The model on the sample data *)

Example filter_high_sample :
  getFilteredCIs (stateOf (resultsOf fourCIs Missing) "high" 1) = [mailCI].
Proof. reflexivity. Qed.

Example filter_medium_sample :
  getFilteredCIs (stateOf (resultsOf fourCIs Missing) "medium" 1) = [dbCI].
Proof. reflexivity. Qed.

Example mixed_high_scenario :
  let st := stateOf (resultsOf mixedCIs Missing) "high" 1 in
  length (getFilteredCIs st) = 40%nat /\ getTotalPages st = 1
  /\ length (getPaginatedCIs st) = 40%nat.
Proof. vm_compute. auto. Qed.

Example mixed_all_pages :
  let st := stateOf (resultsOf mixedCIs Missing) "all" 3 in
  getTotalPages st = 3 /\ length (getPaginatedCIs st) = 20%nat.
Proof. vm_compute. auto. Qed.

Example slice_negative : slice [1; 2; 3; 4; 5] (-2) 5 = [4; 5].
Proof. reflexivity. Qed.

Example slice_inverted : slice [1; 2; 3; 4; 5] 4 2 = [].
Proof. reflexivity. Qed.

(** ** Slicing *)

Section Slicing.
Context {A : Type}.
Implicit Types (items : list A) (page : Z).

Lemma pageOf_length_le items page :
  Z.of_nat (length (pageOf items page)) ≤ itemsPerPage.
Proof.
  unfold pageOf, slice, relativeIndex, itemsPerPage.
  rewrite length_take, length_drop.
  set (s := (page - 1) * 50).
  destruct (Z.ltb_spec s 0), (Z.ltb_spec (s + 50) 0); lia.
Qed.

Lemma slice_past_end items start finish :
  Z.of_nat (length items) ≤ start → slice items start finish = [].
Proof.
  intros Hs. unfold slice, relativeIndex.
  destruct (Z.ltb_spec start 0); [exfalso; lia|].
  rewrite (Z.min_r start) by lia. rewrite Nat2Z.id, drop_all. apply take_nil.
Qed.

(** From page 1 on, a page is the window of [itemsPerPage] items that
    starts after the items of the pages before it. *)
Lemma pageOf_window items page :
  1 ≤ page →
  pageOf items page = take 50 (drop (Z.to_nat ((page - 1) * 50)) items).
Proof.
  intros Hp. unfold pageOf, itemsPerPage.
  set (s := (page - 1) * 50). assert (0 ≤ s) by (unfold s; lia).
  destruct (Z_lt_le_dec s (Z.of_nat (length items))) as [Hin|Hout].
  - unfold slice, relativeIndex.
    destruct (Z.ltb_spec s 0), (Z.ltb_spec (s + 50) 0); try lia.
    rewrite (Z.min_l s) by lia.
    set (rest := drop (Z.to_nat s) items).
    replace (Z.to_nat (Z.min (s + 50) (Z.of_nat (length items)) - s))
      with (Nat.min 50 (length rest)).
    + rewrite <- take_take. f_equal. by apply take_ge.
    + unfold rest. rewrite length_drop. lia.
  - rewrite slice_past_end by done. rewrite drop_ge by lia. by rewrite take_nil.
Qed.

Lemma pages_concat items (n : nat) :
  concat (map (pageOf items) (seqZ 1 (Z.of_nat n))) = take (50 * n) items.
Proof.
  induction n as [|n IH].
  - by rewrite Nat.mul_0_r, take_0.
  - rewrite seqZ_S, map_app, concat_app, IH. simpl concat.
    rewrite pageOf_window by lia. rewrite app_nil_r.
    replace (Z.to_nat ((1 + Z.of_nat n - 1) * 50)) with (50 * n)%nat by lia.
    rewrite take_take_drop. f_equal. lia.
Qed.

End Slicing.

Lemma getPaginatedCIs_pageOf st :
  getPaginatedCIs st = pageOf (getFilteredCIs st) (currentPage st).
Proof. reflexivity. Qed.

Lemma getPaginatedCIs_past_end st :
  Z.of_nat (length (getFilteredCIs st)) ≤ (currentPage st - 1) * 50 →
  getPaginatedCIs st = [].
Proof.
  intros Hpast. rewrite getPaginatedCIs_pageOf. unfold pageOf.
  apply slice_past_end. exact Hpast.
Qed.

Lemma getFilteredCIs_setCurrentPage p st :
  getFilteredCIs (setCurrentPage p st) = getFilteredCIs st.
Proof. reflexivity. Qed.

Lemma getTotalPages_bounds st :
  let len := Z.of_nat (length (getFilteredCIs st)) in
  len ≤ 50 * getTotalPages st < len + 50.
Proof.
  unfold getTotalPages, ceilDiv, itemsPerPage. simpl.
  set (len := Z.of_nat (length (getFilteredCIs st))).
  destruct (Z.eqb_spec len 0) as [->|Hne]; [lia|].
  pose proof (Z.div_mod (len + 50 - 1) 50 ltac:(lia)).
  pose proof (Z.mod_pos_bound (len + 50 - 1) 50 ltac:(lia)). lia.
Qed.

(** ** Pagination *)

(** C5 - With pages of 50 items, the number of pages of the filtered
    sequence is the ceiling of its length over 50 (the least [T] with
    [len <= 50 * T]), it is 0 when the sequence is empty, no page holds
    more than 50 items, and pages 1 to [getTotalPages] put one after the
    other give the filtered sequence back. *)
Theorem pages_partition_filtered (st : State) :
  let items := getFilteredCIs st in
  let len := Z.of_nat (length items) in
  len ≤ itemsPerPage * getTotalPages st < len + itemsPerPage
  ∧ (items = [] → getTotalPages st = 0)
  ∧ (∀ p, Z.of_nat (length (getPaginatedCIs (setCurrentPage p st))) ≤ 50)
  ∧ concat (map (fun p => getPaginatedCIs (setCurrentPage p st))
                (seqZ 1 (getTotalPages st))) = items.
Proof.
  intros items len. pose proof (getTotalPages_bounds st) as HT.
  simpl in HT. fold items len in HT.
  split; [exact HT|]. split; [|split].
  - intros Hnil. unfold len in HT. rewrite Hnil in HT. simpl in HT. lia.
  - intros p. rewrite getPaginatedCIs_pageOf. apply pageOf_length_le.
  - assert (0 ≤ getTotalPages st) as Hpos by lia.
    rewrite <- (Z2Nat.id _ Hpos).
    erewrite map_ext; [rewrite (pages_concat items)|reflexivity].
    apply take_ge. lia.
Qed.

Lemma pages_partition_filtered_witness :
  getFilteredCIs (stateOf (resultsOf [] Missing) "all" 1) = []
  ∧ getTotalPages (stateOf (resultsOf [] Missing) "all" 1) = 0.
Proof.
  split; [reflexivity|].
  apply (pages_partition_filtered (stateOf (resultsOf [] Missing) "all" 1)).
  reflexivity.
Defined.

(** C9 - From page 1 on, when the start index [(p-1)*50] is at or past
    the end of the filtered sequence, [getPaginatedCIs] gives the empty
    sequence: the slice fails on no input and no earlier page is taken. *)
Theorem page_past_end_is_empty (st : State) :
  1 ≤ currentPage st →
  Z.of_nat (length (getFilteredCIs st)) ≤ (currentPage st - 1) * 50 →
  getPaginatedCIs st = [].
Proof.
  intros _ Hpast. by apply getPaginatedCIs_past_end.
Qed.

Lemma page_past_end_is_empty_witness :
  1 ≤ currentPage fiftyOnPageTwo
  ∧ Z.of_nat (length (getFilteredCIs fiftyOnPageTwo)) ≤ (currentPage fiftyOnPageTwo - 1) * 50
  ∧ getPaginatedCIs fiftyOnPageTwo = [].
Proof.
  assert (1 ≤ currentPage fiftyOnPageTwo) as H1 by (simpl; lia).
  assert (Z.of_nat (length (getFilteredCIs fiftyOnPageTwo))
          ≤ (currentPage fiftyOnPageTwo - 1) * 50) as H2 by (vm_compute; discriminate).
  split; [exact H1|]. split; [exact H2|].
  exact (page_past_end_is_empty fiftyOnPageTwo H1 H2).
Defined.

(** C1 (as the code has it) - The requested page is used as it is: from
    page 1 on, [getPaginatedCIs] is the window of 50 items after the first
    [(p-1)*50], and when the page exceeds [getTotalPages] that window is
    empty; with exactly 50 items and page 2 there is one page in total and
    the slice is empty. *)
Theorem requested_page_is_not_clamped (st : State) :
  1 ≤ currentPage st →
  getPaginatedCIs st
    = take 50 (drop (Z.to_nat ((currentPage st - 1) * 50)) (getFilteredCIs st))
  ∧ (getTotalPages st < currentPage st → getPaginatedCIs st = [])
  ∧ (length (getFilteredCIs st) = 50%nat → currentPage st = 2 →
     getTotalPages st = 1 ∧ getPaginatedCIs st = []).
Proof.
  intros Hp. pose proof (getTotalPages_bounds st) as HT. simpl in HT.
  assert (getTotalPages st < currentPage st → getPaginatedCIs st = []) as Hbeyond.
  { intros Hlt. apply getPaginatedCIs_past_end. unfold itemsPerPage in HT. lia. }
  split; [|split].
  - rewrite getPaginatedCIs_pageOf. by apply pageOf_window.
  - exact Hbeyond.
  - intros Hlen Hpage. rewrite Hlen in HT. unfold itemsPerPage in HT.
    assert (getTotalPages st = 1) as HT1 by lia.
    split; [exact HT1|]. apply Hbeyond. lia.
Qed.

Lemma requested_page_is_not_clamped_witness :
  1 ≤ currentPage fiftyOnPageTwo
  ∧ getTotalPages fiftyOnPageTwo = 1 ∧ getPaginatedCIs fiftyOnPageTwo = [].
Proof.
  assert (1 ≤ currentPage fiftyOnPageTwo) as H1 by (simpl; lia).
  split; [exact H1|].
  apply (proj2 (proj2 (requested_page_is_not_clamped fiftyOnPageTwo H1)));
    reflexivity.
Defined.

(** C1 as stated fails: with exactly 50 items and page 2 requested, the
    page exceeds the single page there is, and the slice is not the one
    of page [max 1 totalPages = 1]. *)
Lemma clamping_fails_on_fifty_items :
  length (getFilteredCIs fiftyOnPageTwo) = 50%nat
  ∧ 1 ≤ currentPage fiftyOnPageTwo
  ∧ getTotalPages fiftyOnPageTwo < currentPage fiftyOnPageTwo
  ∧ getPaginatedCIs fiftyOnPageTwo = []
  ∧ getPaginatedCIs fiftyOnPageTwo
    ≠ getPaginatedCIs
        (setCurrentPage (Z.max 1 (getTotalPages fiftyOnPageTwo)) fiftyOnPageTwo).
Proof.
  split; [reflexivity|]. split; [simpl; lia|].
  split; [vm_compute; reflexivity|]. split; [reflexivity|].
  vm_compute. discriminate.
Qed.

(** ** Risk filter *)

Lemma equalIgnoringCase_lower (a b : string) :
  equalIgnoringCase a b = String.eqb (toLowerCase a) (toLowerCase b).
Proof.
  revert b. induction a as [|x a IH]; intros [|y b]; simpl; try reflexivity.
  by rewrite IH.
Qed.

Lemma filterKey_lower (c : FilterCategory) :
  filterKey c = toLowerCase (categoryName c).
Proof. by destruct c. Qed.

Lemma riskKey_lower (ci : CI) :
  riskKey ci = toLowerCase (default EmptyString (risk_level ci)).
Proof.
  unfold riskKey. destruct (risk_level ci) as [[|x s]|]; reflexivity.
Qed.

(** The test of the filter callback is equality up to case with the name
    of the category. *)
Lemma riskKey_matches (c : FilterCategory) (ci : CI) :
  String.eqb (riskKey ci) (filterKey c) = matchesCategory c ci.
Proof.
  unfold matchesCategory. rewrite riskKey_lower, filterKey_lower.
  destruct (risk_level ci) as [s|]; simpl.
  - by rewrite equalIgnoringCase_lower.
  - by destruct c.
Qed.

Lemma filter_sublist {A} (f : A → bool) (l : list A) :
  List.filter f l `sublist_of` l.
Proof.
  induction l as [|x l IH]; simpl; [constructor|].
  destruct (f x); by constructor.
Qed.

Lemma getFilteredCIs_array st r cis :
  scanResults st = Some r → stale_cis r = Arr cis →
  getFilteredCIs st
  = if String.eqb (activeFilter st) "all" then cis
    else List.filter (fun ci => String.eqb (riskKey ci) (activeFilter st)) cis.
Proof. intros Hr Hcis. unfold getFilteredCIs. by rewrite Hr, Hcis. Qed.

(** C4 - On a sequence of stale CIs, the filter [all] gives the sequence
    itself, and the filter of a risk category gives exactly the CIs whose
    risk level is that category up to case, in their original order; a CI
    whose risk level is missing or is none of the four categories is in the
    result of no category filter. *)
Theorem filter_is_case_insensitive_subsequence
    (st : State) (r : ScanResults) (cis : list CI) :
  scanResults st = Some r → stale_cis r = Arr cis →
  (activeFilter st = filterKey All → getFilteredCIs st = cis)
  ∧ (∀ c, c ≠ All → activeFilter st = filterKey c →
       getFilteredCIs st = List.filter (matchesCategory c) cis
       ∧ getFilteredCIs st `sublist_of` cis
       ∧ (∀ ci, ci ∈ getFilteredCIs st ↔ ci ∈ cis ∧ matchesCategory c ci = true)
       ∧ (∀ ci, risk_level ci = None ∨ knownRisk ci = false →
                ci ∉ getFilteredCIs st)).
Proof.
  intros Hr Hcis. rewrite (getFilteredCIs_array st r cis Hr Hcis).
  split.
  - intros ->. reflexivity.
  - intros c Hc ->.
    assert (String.eqb (filterKey c) "all" = false) as -> by (by destruct c).
    assert (List.filter (fun ci => String.eqb (riskKey ci) (filterKey c)) cis
            = List.filter (matchesCategory c) cis) as ->.
    { apply List.filter_ext. intros ci. apply riskKey_matches. }
    assert (∀ ci, ci ∈ List.filter (matchesCategory c) cis
                  ↔ ci ∈ cis ∧ matchesCategory c ci = true) as Hmem.
    { intros ci. rewrite !list_elem_of_In. apply List.filter_In. }
    split; [reflexivity|]. split; [apply filter_sublist|]. split; [exact Hmem|].
    intros ci Hunknown [_ Hmatch]%Hmem.
    destruct Hunknown as [Hnone|Hknown].
    + unfold matchesCategory in Hmatch. by rewrite Hnone in Hmatch.
    + unfold knownRisk in Hknown. simpl in Hknown.
      destruct c; [done|..]; rewrite Hmatch in Hknown; simpl in Hknown;
        rewrite ?orb_true_r in Hknown; discriminate.
Qed.

Lemma filter_is_case_insensitive_subsequence_witness :
  getFilteredCIs fourOnHigh = List.filter (matchesCategory High) fourCIs
  ∧ getFilteredCIs (stateOf (resultsOf fourCIs Missing) "all" 1) = fourCIs.
Proof.
  split.
  - apply (proj2 (filter_is_case_insensitive_subsequence
                    fourOnHigh (resultsOf fourCIs Missing) fourCIs
                    eq_refl eq_refl) High); [discriminate|reflexivity].
  - apply (proj1 (filter_is_case_insensitive_subsequence
                    (stateOf (resultsOf fourCIs Missing) "all" 1)
                    (resultsOf fourCIs Missing) fourCIs eq_refl eq_refl)).
    reflexivity.
Defined.

(** C10 - When there is no scan result, or its [stale_cis] field is
    missing or is not an array, [getFilteredCIs] gives the empty sequence
    under every filter. *)
Theorem filter_total_on_absent_data (st : State) (filter : string) :
  (scanResults st = None
   ∨ ∃ r, scanResults st = Some r
          ∧ (stale_cis r = Missing ∨ ∃ v, stale_cis r = Other v)) →
  getFilteredCIs (setActiveFilter filter st) = [].
Proof.
  intros [Hnone|(r & Hr & [Hmissing|[v Hv]])]; unfold getFilteredCIs; simpl.
  - by rewrite Hnone.
  - by rewrite Hr, Hmissing.
  - rewrite Hr, Hv. simpl. by destruct (truthyScalar v).
Qed.

Lemma filter_total_on_absent_data_witness :
  getFilteredCIs (setActiveFilter "critical" initialState) = []
  ∧ getFilteredCIs
      (setActiveFilter "high"
         (stateOf {| error := None; summary := None;
                     stale_cis := Other (JsStr "none");
                     grouped_by_owners := Missing |} "all" 1)) = [].
Proof.
  split.
  - apply (filter_total_on_absent_data initialState "critical").
    left. reflexivity.
  - apply filter_total_on_absent_data. right. eexists. split; [reflexivity|].
    right. eexists. reflexivity.
Defined.

(** ** Navigation and resets *)

(** C6 - [goToNextPage] on the last page and [goToPrevPage] on page 1
    leave the state, and so the current page, as it is; both are total,
    and the page they reach is the current one or its neighbour inside
    [1 .. getTotalPages]: there is no wrap-around. *)
Theorem next_prev_stop_at_bounds (st : State) :
  (currentPage st = getTotalPages st →
   goToNextPage st = st ∧ currentPage (goToNextPage st) = currentPage st)
  ∧ (currentPage st = 1 →
     goToPrevPage st = st ∧ currentPage (goToPrevPage st) = currentPage st)
  ∧ (currentPage (goToNextPage st) = currentPage st
     ∨ currentPage (goToNextPage st) = currentPage st + 1
       ∧ currentPage st + 1 ≤ getTotalPages st)
  ∧ (currentPage (goToPrevPage st) = currentPage st
     ∨ currentPage (goToPrevPage st) = currentPage st - 1
       ∧ 1 ≤ currentPage st - 1).
Proof.
  unfold goToNextPage, goToPrevPage.
  destruct (Z.ltb_spec (currentPage st) (getTotalPages st)) as [Hn|Hn];
    destruct (Z.ltb_spec 1 (currentPage st)) as [Hp|Hp];
    repeat split; intros; try lia; try reflexivity; simpl; (left + right); lia.
Qed.

Lemma next_prev_stop_at_bounds_witness :
  goToNextPage mixedOnLastPage = mixedOnLastPage
  ∧ goToPrevPage fourOnHigh = fourOnHigh.
Proof.
  split.
  - apply (proj1 (next_prev_stop_at_bounds mixedOnLastPage)).
    vm_compute. reflexivity.
  - apply (proj1 (proj2 (next_prev_stop_at_bounds fourOnHigh))).
    reflexivity.
Defined.

(** C3 (as the code has it) - [goToPage] always closes the expanded CI
    and moves to the page asked for; [goToNextPage] and [goToPrevPage]
    do the same when they move, and at their bound they leave the whole
    state, selection included, as it was. *)
Theorem navigation_closes_expanded_ci (st : State) :
  (∀ n, expandedCI (goToPage n st) = None ∧ currentPage (goToPage n st) = n)
  ∧ (currentPage st < getTotalPages st →
     expandedCI (goToNextPage st) = None
     ∧ currentPage (goToNextPage st) = currentPage st + 1)
  ∧ (1 < currentPage st →
     expandedCI (goToPrevPage st) = None
     ∧ currentPage (goToPrevPage st) = currentPage st - 1)
  ∧ (getTotalPages st ≤ currentPage st → goToNextPage st = st)
  ∧ (currentPage st ≤ 1 → goToPrevPage st = st)
  ∧ (∀ op, navigate op st = st ∨ expandedCI (navigate op st) = None).
Proof.
  split; [intros n; split; reflexivity|].
  split; [|split; [|split; [|split]]].
  - intros Hlt. unfold goToNextPage. apply Z.ltb_lt in Hlt. by rewrite Hlt.
  - intros Hlt. unfold goToPrevPage. apply Z.ltb_lt in Hlt. by rewrite Hlt.
  - intros Hge. unfold goToNextPage. apply Z.ltb_ge in Hge. by rewrite Hge.
  - intros Hle. unfold goToPrevPage. apply Z.ltb_ge in Hle. by rewrite Hle.
  - intros [n| |]; simpl; unfold goToNextPage, goToPrevPage.
    + right. reflexivity.
    + destruct (currentPage st <? getTotalPages st); [right|left]; reflexivity.
    + destruct (1 <? currentPage st); [right|left]; reflexivity.
Qed.

Lemma navigation_closes_expanded_ci_witness :
  expandedCI (goToNextPage selectedOnPageOne) = None
  ∧ goToPrevPage selectedOnPageOne = selectedOnPageOne.
Proof.
  split.
  - apply (proj1 (proj2 (navigation_closes_expanded_ci selectedOnPageOne))).
    vm_compute. reflexivity.
  - apply (proj1 (proj2 (proj2 (proj2 (proj2
             (navigation_closes_expanded_ci selectedOnPageOne)))))).
    simpl. lia.
Defined.

(** C3 as stated fails: on page 1 [goToPrevPage] resets nothing, and
    after [goToPage 2] and [goToNextPage] the set of CIs with open
    alternates still holds the CI that was in it. *)
Lemma navigation_keeps_selection :
  expandedCI selectedOnPageOne = Some "ci-web"
  ∧ expandedCI (navigate PrevPage selectedOnPageOne) ≠ None
  ∧ expandedAlternates (navigate (GoToPage 2) selectedOnPageOne) ≠ ∅
  ∧ expandedAlternates (navigate NextPage selectedOnPageOne) ≠ ∅.
Proof.
  assert ("ci-web" ∈ expandedAlternates selectedOnPageOne) as Hin.
  { unfold selectedOnPageOne, toggleAlternateRecommendations. simpl.
    rewrite decide_False by set_solver. set_solver. }
  split; [reflexivity|]. split; [discriminate|]. split.
  - intros Hempty.
    change (expandedAlternates selectedOnPageOne = ∅) in Hempty.
    rewrite Hempty in Hin. set_solver.
  - intros Hempty.
    assert (goToNextPage selectedOnPageOne = goToPage 2 selectedOnPageOne) as Hnext.
    { unfold goToNextPage.
      assert ((currentPage selectedOnPageOne <? getTotalPages selectedOnPageOne) = true)
        as -> by (vm_compute; reflexivity).
      reflexivity. }
    unfold navigate in Hempty. rewrite Hnext in Hempty.
    change (expandedAlternates selectedOnPageOne = ∅) in Hempty.
    rewrite Hempty in Hin. set_solver.
Qed.

(** What the handlers do to the set of open alternates: a page change
    keeps it, a filter change empties it. *)
Lemma goToPage_keeps_alternates (n : Z) (st : State) :
  expandedAlternates (goToPage n st) = expandedAlternates st.
Proof. reflexivity. Qed.

Lemma setFilter_resets_selection (filter : string) (st : State) :
  currentPage (setFilter filter st) = 1
  ∧ expandedCI (setFilter filter st) = None
  ∧ expandedAlternates (setFilter filter st) = ∅.
Proof. repeat split; reflexivity. Qed.

(** C7 - Installing a scan result, be it a report or an error object,
    resets the derived state: the page is 1, the filter is [all], no CI
    is expanded and no CI has its alternates open. The same holds at the
    end of [scanStaleOwnership] whatever the service answered. *)
Theorem install_resets_derived_state (r : ScanResults) (st : State) :
  (let st' := installResults r st in
   scanResults st' = Some r ∧ currentPage st' = 1
   ∧ activeFilter st' = filterKey All
   ∧ expandedCI st' = None ∧ expandedAlternates st' = ∅)
  ∧ (∀ resp,
       let st' := scanStaleOwnership true resp st in
       scanResults st' = Some (responsePayload resp) ∧ currentPage st' = 1
       ∧ activeFilter st' = filterKey All
       ∧ expandedCI st' = None ∧ expandedAlternates st' = ∅).
Proof.
  split; [|intros resp]; repeat split; reflexivity.
Qed.

(** ** Error payloads *)

(** The error objects the component builds itself carry a message that
    is never empty. *)
Lemma failed_scan_renders_message (st : State) (e : option string) :
  ∃ msg, msg ≠ ""
         ∧ renderResults (scanStaleOwnership true (ResponseFailed e) st) = ErrorCard msg
         ∧ renderResults (scanStaleOwnership true NetworkFailure st)
           = ErrorCard "Network error during scan. Please try again.".
Proof.
  destruct e as [[|c s]|].
  - exists "Scan failed. Please try again.". by repeat split.
  - exists (String c s). by repeat split.
  - exists "Scan failed. Please try again.". by repeat split.
Qed.

(** C8 (as the code has it) - For every installed payload whose [error]
    field is a non-empty string, only the error message is rendered: no
    summary card, no stale-CI list and no owner group. *)
Theorem truthy_error_renders_only_message
    (st : State) (r : ScanResults) (msg : string) :
  scanResults st = Some r → error r = Some msg → msg ≠ "" →
  renderResults st = ErrorCard msg ∧ displayedGroups st = [].
Proof.
  intros Hr He Hmsg.
  assert (renderResults st = ErrorCard msg) as Hview.
  { unfold renderResults. rewrite Hr, He.
    destruct msg as [|c s]; [done|reflexivity]. }
  split; [exact Hview|]. unfold displayedGroups. by rewrite Hview.
Qed.

Lemma truthy_error_renders_only_message_witness :
  renderResults (stateOf (errorPayload "Invalid credentials") "all" 1)
  = ErrorCard "Invalid credentials".
Proof.
  apply (truthy_error_renders_only_message
           (stateOf (errorPayload "Invalid credentials") "all" 1)
           (errorPayload "Invalid credentials") "Invalid credentials");
    [reflexivity|reflexivity|discriminate].
Defined.

(** C8 as stated fails: a payload that has an [error] field holding the
    empty string is rendered as a report, stale-CI list included. *)
Lemma empty_error_renders_ci_data :
  error emptyErrorWithCIs = Some ""
  ∧ renderResults (stateOf emptyErrorWithCIs "all" 1)
    = Panel (renderPanel (stateOf emptyErrorWithCIs "all" 1) emptyErrorWithCIs)
  ∧ staleList (renderPanel (stateOf emptyErrorWithCIs "all" 1) emptyErrorWithCIs)
    = Some fourCIs
  ∧ renderResults (stateOf emptyErrorWithCIs "all" 1) ≠ ErrorCard "".
Proof. repeat split; try reflexivity. discriminate. Qed.

(** ** Owner groups *)

(** What the grouped view shows is read off three things only: the
    [error] and [grouped_by_owners] fields of the payload and the
    [showGroupedView] flag. *)
Lemma displayedGroups_read (st : State) (r : ScanResults) :
  scanResults st = Some r →
  displayedGroups st
  = match error r with
    | Some msg =>
        if truthyStr msg then []
        else if hasGroups r && showGroupedView st
             then fieldItems (grouped_by_owners r) else []
    | None =>
        if hasGroups r && showGroupedView st
        then fieldItems (grouped_by_owners r) else []
    end.
Proof.
  intros Hr. unfold displayedGroups, renderResults. rewrite Hr.
  destruct (error r) as [msg|]; [destruct (truthyStr msg); [reflexivity|]|];
    simpl; by destruct (hasGroups r && showGroupedView st).
Qed.

Lemma hasGroups_array (r : ScanResults) (gs : list OwnerGroup) :
  grouped_by_owners r = Arr gs →
  (if hasGroups r then fieldItems (grouped_by_owners r) else []) = gs.
Proof. intros Hgs. unfold hasGroups. rewrite Hgs. by destruct gs. Qed.

(** C2 (as the code has it) - The component derives no grouping. When
    no error is shown and the grouped view is switched on, it shows the
    [grouped_by_owners] list of the payload (of complete groups, see
    [OwnerGroup]) exactly as received, so a CI
    is in a displayed group exactly when the payload has it in that group
    and the [total_cis] shown add up to those of the payload. It shows no
    group when an error is shown, when the view is switched off, or when
    the field is missing, not an array or empty. Stale CIs, filter and
    page have no part in it: two states that agree on [error],
    [grouped_by_owners] and the switch show the same groups. *)
Theorem grouped_view_shows_upstream_groups (st : State) (r : ScanResults) :
  scanResults st = Some r →
  (∀ gs, error r = None ∨ error r = Some "" → showGroupedView st = true →
         grouped_by_owners r = Arr gs →
         displayedGroups st = gs
         ∧ sumTotalCis (displayedGroups st) = sumTotalCis gs
         ∧ ∀ ci j, (∃ g, displayedGroups st !! j = Some g ∧ ci ∈ cis_to_assign g)
                   ↔ (∃ g, gs !! j = Some g ∧ ci ∈ cis_to_assign g))
  ∧ ((∃ msg, error r = Some msg ∧ msg ≠ "") ∨ showGroupedView st = false
     ∨ grouped_by_owners r = Missing ∨ (∃ v, grouped_by_owners r = Other v)
     ∨ grouped_by_owners r = Arr [] →
     displayedGroups st = [])
  ∧ (∀ st' r', scanResults st' = Some r' → error r' = error r →
               grouped_by_owners r' = grouped_by_owners r →
               showGroupedView st' = showGroupedView st →
               displayedGroups st' = displayedGroups st).
Proof.
  intros Hr. rewrite (displayedGroups_read st r Hr). split; [|split].
  - intros gs Herr Hshow Hgs.
    assert ((if hasGroups r && showGroupedView st
             then fieldItems (grouped_by_owners r) else []) = gs) as Hshown.
    { rewrite Hshow, andb_true_r. by apply hasGroups_array. }
    assert (match error r with
            | Some msg =>
                if truthyStr msg then []
                else if hasGroups r && showGroupedView st
                     then fieldItems (grouped_by_owners r) else []
            | None =>
                if hasGroups r && showGroupedView st
                then fieldItems (grouped_by_owners r) else []
            end = gs) as ->.
    { destruct Herr as [-> | ->]; exact Hshown. }
    by repeat split.
  - intros Hnothing.
    destruct Hnothing as [(msg & -> & Hmsg)|Hnothing].
    { destruct msg; [done|reflexivity]. }
    assert ((if hasGroups r && showGroupedView st
             then fieldItems (grouped_by_owners r) else []) = []) as Hnone.
    { destruct Hnothing as [->|[Hg|[[v Hg]|Hg]]].
      - by rewrite andb_false_r.
      - unfold hasGroups. by rewrite Hg.
      - unfold hasGroups. rewrite Hg. simpl. by rewrite andb_false_r.
      - unfold hasGroups. by rewrite Hg. }
    destruct (error r) as [msg|]; [|exact Hnone].
    destruct (truthyStr msg); [reflexivity|exact Hnone].
  - intros st' r' Hr' He Hg Hs. rewrite (displayedGroups_read st' r' Hr').
    unfold hasGroups. by rewrite He, Hg, Hs.
Qed.

Lemma grouped_view_shows_upstream_groups_witness :
  displayedGroups fourMisgrouped = [misgrouped]
  ∧ displayedGroups fourWithoutGroups = [].
Proof.
  split.
  - apply (proj1 (grouped_view_shows_upstream_groups
                    fourMisgrouped (resultsOf fourCIs (Arr [misgrouped])) eq_refl)
             [misgrouped]); [by left|reflexivity|reflexivity].
  - apply (proj1 (proj2 (grouped_view_shows_upstream_groups
                           fourWithoutGroups (resultsOf fourCIs Missing) eq_refl))).
    right. right. by left.
Defined.

(** C2 as stated fails: a payload without [grouped_by_owners] leaves a
    stale CI that has recommendations in no group, and a payload whose
    upstream list holds a CI without recommendation shows that group and
    its [total_cis] as received. *)
Lemma grouping_is_not_derived :
  webCI ∈ fourCIs ∧ hasRecommendation webCI = true
  ∧ displayedGroups fourWithoutGroups = []
  ∧ sumTotalCis (displayedGroups fourWithoutGroups)
    ≠ Z.of_nat (length (List.filter hasRecommendation fourCIs))
  ∧ hasRecommendation orphanCI = false
  ∧ displayedGroups fourMisgrouped = [misgrouped]
  ∧ orphanCI ∈ cis_to_assign misgrouped
  ∧ sumTotalCis (displayedGroups fourMisgrouped)
    ≠ Z.of_nat (length (List.filter hasRecommendation fourCIs)).
Proof.
  split; [apply list_elem_of_here|]. split; [reflexivity|].
  split; [reflexivity|]. split; [vm_compute; discriminate|].
  split; [reflexivity|]. split; [reflexivity|].
  split; [apply list_elem_of_here|]. vm_compute. discriminate.
Qed.

(** * Further properties of the component *)

(** ** Characters *)

Lemma upperChar_idem (c : ascii) : upperChar (upperChar c) = upperChar c.
Proof. destruct c as [[] [] [] [] [] [] [] []]; reflexivity. Qed.

Lemma isWordChar_upperChar (c : ascii) : isWordChar (upperChar c) = isWordChar c.
Proof. destruct c as [[] [] [] [] [] [] [] []]; reflexivity. Qed.

Lemma upperChar_not_underscore (c : ascii) :
  c ≠ "_"%char → upperChar c ≠ "_"%char.
Proof. destruct c as [[] [] [] [] [] [] [] []]; intros H; try discriminate; done. Qed.

Lemma underscoreToSpace_not_underscore (c : ascii) :
  underscoreToSpace c ≠ "_"%char.
Proof.
  unfold underscoreToSpace. destruct (Ascii.eqb_spec c "_"); [discriminate|done].
Qed.

(** ** Rule names *)

Lemma mapChars_length (f : ascii → ascii) (s : string) :
  String.length (mapChars f s) = String.length s.
Proof. induction s as [|c s IH]; simpl; congruence. Qed.

Lemma capitalizeWords_length (b : bool) (s : string) :
  String.length (capitalizeWords b s) = String.length s.
Proof. revert b. induction s as [|c s IH]; intros b; simpl; [done|]. by rewrite IH. Qed.

Lemma capitalizeWords_idem (b : bool) (s : string) :
  capitalizeWords b (capitalizeWords b s) = capitalizeWords b s.
Proof.
  revert b. induction s as [|c s IH]; intros b; simpl; [done|].
  destruct (isWordChar c && negb b) eqn:Hcap.
  - rewrite isWordChar_upperChar, Hcap, upperChar_idem. by rewrite IH.
  - rewrite Hcap. by rewrite IH.
Qed.

Lemma capitalizeWords_no_underscore (b : bool) (s : string) :
  "_"%char ∉ String.list_ascii_of_string s →
  ("_"%char ∉ String.list_ascii_of_string (capitalizeWords b s))
  ∧ mapChars underscoreToSpace (capitalizeWords b s) = capitalizeWords b s.
Proof.
  revert b. induction s as [|c s IH]; intros b Hno; simpl; [split; [by intros ?%elem_of_nil|done]|].
  simpl in Hno. apply not_elem_of_cons in Hno as [Hc Hs].
  destruct (IH (isWordChar c) Hs) as [IH1 IH2].
  set (c' := if isWordChar c && negb b then upperChar c else c).
  assert (c' ≠ "_"%char) as Hc'.
  { unfold c'. destruct (isWordChar c && negb b); [|done].
    apply upperChar_not_underscore. congruence. }
  split.
  - apply not_elem_of_cons. split; [congruence|done].
  - rewrite IH2. f_equal. unfold underscoreToSpace.
    destruct (Ascii.eqb_spec c' "_"); [done|reflexivity].
Qed.

Lemma mapChars_no_underscore (s : string) :
  "_"%char ∉ String.list_ascii_of_string (mapChars underscoreToSpace s).
Proof.
  induction s as [|c s IH]; simpl; [by intros ?%elem_of_nil|].
  apply not_elem_of_cons. split; [|done].
  intros Heq. by apply (underscoreToSpace_not_underscore c).
Qed.

(** X21 - A rule name is shown with as many characters as it has, without
    any underscore, and formatting the shown name again changes nothing. *)
Theorem formatRuleName_stable (rule_name : string) :
  String.length (formatRuleName rule_name) = String.length rule_name
  ∧ ("_"%char ∉ String.list_ascii_of_string (formatRuleName rule_name))
  ∧ formatRuleName (formatRuleName rule_name) = formatRuleName rule_name.
Proof.
  unfold formatRuleName.
  destruct (capitalizeWords_no_underscore false _ (mapChars_no_underscore rule_name))
    as [Hno Hfix].
  split; [by rewrite capitalizeWords_length, mapChars_length|].
  split; [exact Hno|]. rewrite Hfix. apply capitalizeWords_idem.
Qed.

Example formatRuleName_sample :
  formatRuleName "owner_inactive_90days" = "Owner Inactive 90days".
Proof. reflexivity. Qed.

(** ** Risk styling against the risk filter *)

(** X20 - Colour and icon sort risk levels into the same classes, and
    both go by the exact spelling: a CI styled as Critical, High or Medium
    is selected by the filter of that category. *)
Theorem styling_agrees_with_filter (a b : option string) (ci : CI) (c : FilterCategory) :
  (getRiskColor a = getRiskColor b ↔ getRiskIcon a = getRiskIcon b)
  ∧ (c = Critical ∨ c = High ∨ c = Medium →
     getRiskColor (risk_level ci) = getRiskColor (Some (categoryName c)) →
     risk_level ci = Some (categoryName c) ∧ matchesCategory c ci = true).
Proof.
  split.
  - unfold getRiskColor, getRiskIcon.
    destruct a as [a|], b as [b|];
      repeat match goal with
             | |- context [String.eqb ?x ?y] => destruct (String.eqb x y)
             end; split; intros H; (reflexivity || discriminate H).
  - intros Hc Hcolor.
    assert (risk_level ci = Some (categoryName c)) as Hlevel.
    { unfold getRiskColor in Hcolor.
      destruct (risk_level ci) as [s|];
        destruct Hc as [-> | [-> | ->]]; simpl in Hcolor;
        repeat match type of Hcolor with
               | context [String.eqb ?x ?y] =>
                   destruct (String.eqb_spec x y); [subst|]
               end; try discriminate Hcolor; reflexivity. }
    split; [exact Hlevel|]. unfold matchesCategory. rewrite Hlevel.
    by destruct Hc as [-> | [-> | ->]].
Qed.

Lemma styling_agrees_with_filter_witness :
  matchesCategory Critical webCI = true.
Proof.
  apply (styling_agrees_with_filter None None webCI Critical);
    [by left|reflexivity].
Defined.

(** ** Simulated progress *)

(** X16 - Counted from 0, the simulated progress after [n] ticks is
    [15 * n] capped at 90: it never passes 90 before the answer is in. *)
Theorem progress_after_ticks (n : nat) :
  Nat.iter n progressTick 0 = Z.min (15 * Z.of_nat n) 90.
Proof.
  induction n as [|n IH]; [reflexivity|].
  rewrite Nat.iter_succ, IH. unfold progressTick.
  destruct (Z.leb_spec 90 (Z.min (15 * Z.of_nat n) 90)); lia.
Qed.

(** ** Owner cards *)

Lemma slice_from_one {A} (l : list A) :
  slice l 1 (Z.of_nat (length l)) = drop 1 l.
Proof.
  unfold slice, relativeIndex.
  destruct l as [|x l]; [reflexivity|].
  destruct (Z.ltb_spec 1 0); [lia|].
  destruct (Z.ltb_spec (Z.of_nat (length (x :: l))) 0); [lia|].
  rewrite Z.min_id, (Z.min_l 1) by (cbn [length]; lia).
  apply take_ge. rewrite length_drop. lia.
Qed.

Lemma slice_prefix {A} (l : list A) (n : Z) :
  0 ≤ n → slice l 0 n = take (Z.to_nat n) l.
Proof.
  intros Hn. unfold slice, relativeIndex. simpl.
  destruct (Z.ltb_spec n 0); [lia|].
  rewrite (Z.min_l 0) by lia. rewrite Z.sub_0_r.
  change (drop (Z.to_nat 0) l) with l.
  destruct (Z.le_ge_cases n (Z.of_nat (length l))).
  - by rewrite Z.min_l.
  - rewrite Z.min_r, Nat2Z.id by lia. rewrite (take_ge l (length l)) by lia.
    symmetry. apply take_ge. lia.
Qed.

Lemma omap_cons_Some {A B} (f : A → option B) (x : A) (y : B) (l : list A) :
  f x = Some y → omap f (x :: l) = y :: omap f l.
Proof. intros Hfx. simpl. by rewrite Hfx. Qed.

Lemma imap_alternates_owners (k : Z) (os : list Owner) :
  omap cardOwner (imap (fun i o => Alternate (Z.of_nat i + k) o) os) = os
  ∧ omap cardRank (imap (fun i o => Alternate (Z.of_nat i + k) o) os)
    = seqZ k (Z.of_nat (length os)).
Proof.
  revert k. induction os as [|o os IH]; intros k; [done|].
  rewrite imap_cons.
  assert (imap ((fun i o => Alternate (Z.of_nat i + k) o) ∘ S) os
          = imap (fun i o => Alternate (Z.of_nat i + (k + 1)) o) os) as ->.
  { apply imap_ext. intros i x _. simpl. f_equal. lia. }
  destruct (IH (k + 1)) as [IH1 IH2]. split.
  - rewrite (omap_cons_Some cardOwner _ o) by reflexivity. by rewrite IH1.
  - rewrite (seqZ_cons k) by (cbn [length]; lia).
    rewrite (omap_cons_Some cardRank _ k) by (simpl; f_equal; lia).
    rewrite IH2. f_equal. f_equal; cbn [length]; lia.
Qed.

(** X23 - With the alternates open, the cards of a CI that has two or
    more recommendations show every recommended owner once, in the order
    of the payload, ranked 1, 2, 3, ...; with one recommendation the only
    other card is the current owner; with the alternates closed only the
    top match is shown; without recommendation there is no card. *)
Theorem ownerCards_show_each_candidate_once (ci : CI) :
  (2 ≤ length (recommended_owners ci))%nat →
  ∃ cards, ownerCards true ci = Some cards
           ∧ omap cardOwner cards = recommended_owners ci
           ∧ omap cardRank cards = seqZ 1 (Z.of_nat (length (recommended_owners ci)))
           ∧ ∃ first, ownerCards false ci = Some [TopMatch first]
                      ∧ head (recommended_owners ci) = Some first.
Proof.
  intros Hlen. unfold ownerCards.
  destruct (recommended_owners ci) as [|first rest] eqn:Hrec; [simpl in Hlen; lia|].
  destruct rest as [|second rest]; [simpl in Hlen; lia|].
  eexists. split; [reflexivity|].
  assert ((1 <=? Z.of_nat (length (first :: second :: rest))) = true) as ->
    by (apply Z.leb_le; cbn [length]; lia).
  assert ((1 <? Z.of_nat (length (first :: second :: rest))) = true) as ->
    by (apply Z.ltb_lt; cbn [length]; lia).
  assert ((Z.of_nat (length (first :: second :: rest)) =? 1) = false) as ->
    by (apply Z.eqb_neq; cbn [length]; lia).
  rewrite slice_from_one, app_nil_r. cbn [andb drop].
  destruct (imap_alternates_owners 2 (second :: rest)) as [Hown Hrank].
  split; [|split].
  - rewrite (omap_cons_Some cardOwner _ first) by reflexivity.
    f_equal. exact Hown.
  - rewrite (seqZ_cons 1) by (cbn [length]; lia).
    rewrite (omap_cons_Some cardRank _ 1) by reflexivity.
    f_equal. rewrite Hrank. f_equal. cbn [length]. lia.
  - exists first. split; reflexivity.
Qed.

Lemma ownerCards_show_each_candidate_once_witness :
  ∃ cards, ownerCards true webCI = Some cards
           ∧ omap cardOwner cards = recommended_owners webCI
           ∧ omap cardRank cards = seqZ 1 (Z.of_nat (length (recommended_owners webCI)))
           ∧ ∃ first, ownerCards false webCI = Some [TopMatch first]
                      ∧ head (recommended_owners webCI) = Some first.
Proof.
  apply (ownerCards_show_each_candidate_once webCI). simpl. lia.
Defined.

(** A CI with exactly one recommendation shows, with the
    alternates open, its top match and then the current owner, and a CI
    without recommendation shows no card at all, open or closed. *)
Lemma ownerCards_small_lists (ci : CI) (o : Owner) (alternatesOpen : bool) :
  (recommended_owners ci = [o] →
   ownerCards true ci = Some [TopMatch o; CurrentOwner (current_owner ci)]
   ∧ ownerCards false ci = Some [TopMatch o])
  ∧ (recommended_owners ci = [] → ownerCards alternatesOpen ci = None)
  ∧ (ownerCards alternatesOpen ci = None → hasRecommendation ci = false).
Proof.
  unfold ownerCards, hasRecommendation. split; [|split].
  - intros ->. split; reflexivity.
  - by intros ->.
  - by destruct (recommended_owners ci).
Qed.

Lemma ownerCards_small_lists_witness :
  ownerCards true dbCI = Some [TopMatch alice; CurrentOwner (current_owner dbCI)]
  ∧ ownerCards false orphanCI = None.
Proof.
  split.
  - apply (proj1 (ownerCards_small_lists dbCI alice true)). reflexivity.
  - apply (proj1 (proj2 (ownerCards_small_lists orphanCI alice false))). reflexivity.
Defined.

(** X24 - In the older variant the three cards shown are the first three
    recommendations, and together with the count behind "more
    recommendations available" they account for every recommendation. *)
Theorem topThree_and_more_cover_all (ci : CI) :
  topThree ci = take 3 (recommended_owners ci)
  ∧ Z.of_nat (length (topThree ci)) + default 0 (moreRecommendations ci)
    = Z.of_nat (length (recommended_owners ci))
  ∧ (moreRecommendations ci = None ↔ topThree ci = recommended_owners ci).
Proof.
  assert (topThree ci = take 3 (recommended_owners ci)) as Htop
    by (unfold topThree; by rewrite slice_prefix).
  rewrite Htop. unfold moreRecommendations.
  split; [reflexivity|].
  destruct (Z.ltb_spec 3 (Z.of_nat (length (recommended_owners ci)))) as [Hmore|Hfew].
  - split; [rewrite length_take; unfold default, id; lia|].
    split; [discriminate|]. intros Heq.
    apply (f_equal length) in Heq. rewrite length_take in Heq. lia.
  - split; [rewrite length_take; unfold default, id; lia|].
    split; [|done]. intros _. apply take_ge. lia.
Qed.

(** ** Selection toggles *)

(** X1 - Toggling the alternates of the same CI twice gives back the
    state it started from. *)
Theorem toggleAlternates_twice (ciId : string) (st : State) :
  toggleAlternateRecommendations ciId (toggleAlternateRecommendations ciId st) = st.
Proof.
  destruct st as [r e g p alts f].
  unfold toggleAlternateRecommendations, setExpandedAlternates. simpl. f_equal.
  destruct (decide (ciId ∈ alts)) as [Hin|Hout].
  - rewrite decide_False
      by (rewrite elem_of_difference, elem_of_singleton; tauto).
    apply set_eq. intros x.
    rewrite elem_of_union, elem_of_difference, elem_of_singleton.
    destruct (decide (x = ciId)) as [->|]; tauto.
  - rewrite decide_True
      by (rewrite elem_of_union, elem_of_singleton; tauto).
    apply set_eq. intros x.
    rewrite elem_of_difference, elem_of_union, elem_of_singleton.
    destruct (decide (x = ciId)) as [->|]; tauto.
Qed.

(** X2 - Toggling the alternates of a CI flips the membership of that CI
    and of no other, and leaves the result, the expanded CI, the page,
    the filter and the grouped view alone. *)
Theorem toggleAlternates_touches_one_ci (ciId other : string) (st : State) :
  let st' := toggleAlternateRecommendations ciId st in
  (ciId ∈ expandedAlternates st' ↔ ciId ∉ expandedAlternates st)
  ∧ (other ≠ ciId → (other ∈ expandedAlternates st' ↔ other ∈ expandedAlternates st))
  ∧ scanResults st' = scanResults st ∧ expandedCI st' = expandedCI st
  ∧ currentPage st' = currentPage st ∧ activeFilter st' = activeFilter st
  ∧ showGroupedView st' = showGroupedView st.
Proof.
  simpl. unfold toggleAlternateRecommendations. simpl.
  destruct (decide (ciId ∈ expandedAlternates st));
    (split; [|split; [intros Hother|by repeat split]]);
    rewrite ?elem_of_difference, ?elem_of_union, ?elem_of_singleton; tauto.
Qed.

Lemma toggleAlternates_touches_one_ci_witness :
  "ci-db" ∈ expandedAlternates (toggleAlternateRecommendations "ci-web" selectedOnPageOne)
  ↔ "ci-db" ∈ expandedAlternates selectedOnPageOne.
Proof.
  apply (toggleAlternates_touches_one_ci "ci-web" "ci-db" selectedOnPageOne).
  discriminate.
Defined.

(** X3 - Expanding a second CI collapses the first: whatever was expanded
    before, after a click on [a] and then on another CI [b] it is [b] that
    is expanded; and a second click on the same CI undoes the first when
    no other CI was expanded. *)
Theorem expanding_another_ci_replaces (a b : string) (st : State) :
  (a ≠ b → expandedCI (toggleCIExpansion b (toggleCIExpansion a st)) = Some b)
  ∧ (expandedCI st = None ∨ expandedCI st = Some a →
     toggleCIExpansion a (toggleCIExpansion a st) = st).
Proof.
  unfold toggleCIExpansion, setExpandedCI. split.
  - intros Hab. simpl. repeat (case_decide; simpl); congruence.
  - destruct st as [r e g p alts f]. simpl. intros [->| ->];
      repeat (case_decide; simpl); congruence.
Qed.

Lemma expanding_another_ci_replaces_witness :
  expandedCI (toggleCIExpansion "ci-db" (toggleCIExpansion "ci-web" selectedOnPageOne))
  = Some "ci-db"
  ∧ toggleCIExpansion "ci-web" (toggleCIExpansion "ci-web" selectedOnPageOne)
    = selectedOnPageOne.
Proof.
  split.
  - apply (proj1 (expanding_another_ci_replaces "ci-web" "ci-db" selectedOnPageOne)).
    discriminate.
  - apply (proj2 (expanding_another_ci_replaces "ci-web" "ci-db" selectedOnPageOne)).
    right. reflexivity.
Defined.

(** ** The risk filters as a partition *)

Lemma matchesCategory_unique (c c' : FilterCategory) (ci : CI) :
  matchesCategory c ci = true → matchesCategory c' ci = true → c = c'.
Proof.
  rewrite <- !riskKey_matches. intros H1%String.eqb_eq H2%String.eqb_eq.
  rewrite H1 in H2. by destruct c, c'.
Qed.

Lemma category_counts (cis : list CI) :
  (length (List.filter (matchesCategory Critical) cis)
   + length (List.filter (matchesCategory High) cis)
   + length (List.filter (matchesCategory Medium) cis)
   + length (List.filter (matchesCategory Low) cis))%nat
  = length (List.filter knownRisk cis).
Proof.
  induction cis as [|ci cis IH]; [reflexivity|].
  cbn [List.filter]. unfold knownRisk at 1. cbn [existsb].
  pose proof (matchesCategory_unique Critical High ci) as HCH.
  pose proof (matchesCategory_unique Critical Medium ci) as HCM.
  pose proof (matchesCategory_unique Critical Low ci) as HCL.
  pose proof (matchesCategory_unique High Medium ci) as HHM.
  pose proof (matchesCategory_unique High Low ci) as HHL.
  pose proof (matchesCategory_unique Medium Low ci) as HML.
  destruct (matchesCategory Critical ci), (matchesCategory High ci),
    (matchesCategory Medium ci), (matchesCategory Low ci);
    try (by (specialize (HCH eq_refl eq_refl) || specialize (HCM eq_refl eq_refl)
             || specialize (HCL eq_refl eq_refl) || specialize (HHM eq_refl eq_refl)
             || specialize (HHL eq_refl eq_refl) || specialize (HML eq_refl eq_refl)));
    cbn [orb length]; lia.
Qed.

(** X5 - The four risk filters select disjoint parts of the stale CIs:
    no CI is listed under two categories, and the sizes of the four
    filtered lists add up to the number of stale CIs whose risk level is
    one of the four, which is at most the size of the unfiltered list. *)
Theorem risk_filters_partition (st : State) (r : ScanResults) (cis : list CI) :
  scanResults st = Some r → stale_cis r = Arr cis →
  let listed c := getFilteredCIs (setActiveFilter (filterKey c) st) in
  (∀ c c' ci, c ≠ All → c' ≠ All → ci ∈ listed c → ci ∈ listed c' → c = c')
  ∧ (length (listed Critical) + length (listed High)
     + length (listed Medium) + length (listed Low))%nat
    = length (List.filter knownRisk cis)
  ∧ (length (List.filter knownRisk cis) ≤ length (listed All))%nat.
Proof.
  intros Hr Hcis listed.
  assert (∀ c, c ≠ All → listed c = List.filter (matchesCategory c) cis) as Hlisted.
  { intros c Hc. unfold listed.
    rewrite (getFilteredCIs_array _ r cis) by done. simpl.
    assert (String.eqb (filterKey c) "all" = false) as -> by (by destruct c).
    apply List.filter_ext. intros ci. apply riskKey_matches. }
  assert (listed All = cis) as HAll.
  { unfold listed. by rewrite (getFilteredCIs_array _ r cis). }
  split; [|split].
  - intros c c' ci Hc Hc'. rewrite (Hlisted c Hc), (Hlisted c' Hc').
    rewrite !list_elem_of_In, !List.filter_In. intros [_ H1] [_ H2].
    by apply (matchesCategory_unique c c' ci).
  - rewrite !Hlisted by done. apply category_counts.
  - rewrite HAll. apply List.filter_length_le.
Qed.

Lemma risk_filters_partition_witness :
  (length (getFilteredCIs (setActiveFilter (filterKey Critical) fourOnHigh))
   + length (getFilteredCIs (setActiveFilter (filterKey High) fourOnHigh))
   + length (getFilteredCIs (setActiveFilter (filterKey Medium) fourOnHigh))
   + length (getFilteredCIs (setActiveFilter (filterKey Low) fourOnHigh)))%nat
  = length (List.filter knownRisk fourCIs).
Proof.
  apply (risk_filters_partition fourOnHigh (resultsOf fourCIs Missing) fourCIs
           eq_refl eq_refl).
Defined.

(** ** Pagination bar *)

Lemma getTotalPages_goToPage (n : Z) (st : State) :
  getTotalPages (goToPage n st) = getTotalPages st.
Proof. reflexivity. Qed.

Lemma getTotalPages_nonneg (st : State) : 0 ≤ getTotalPages st.
Proof. pose proof (getTotalPages_bounds st) as H. simpl in H. unfold itemsPerPage in H. lia. Qed.

(** X4 - After a change of filter the first page of the newly filtered
    list is on screen: its first 50 items, and something whenever the
    filter selects anything. *)
Theorem setFilter_shows_first_page (filter : string) (st : State) :
  let st' := setFilter filter st in
  getFilteredCIs st' = getFilteredCIs (setActiveFilter filter st)
  ∧ getPaginatedCIs st' = take 50 (getFilteredCIs st')
  ∧ (getPaginatedCIs st' = [] ↔ getFilteredCIs st' = []).
Proof.
  intros st'.
  assert (getPaginatedCIs st' = take 50 (getFilteredCIs st')) as Hpage.
  { rewrite getPaginatedCIs_pageOf. unfold st'. simpl currentPage.
    by rewrite pageOf_window. }
  split; [reflexivity|]. split; [exact Hpage|]. rewrite Hpage.
  destruct (getFilteredCIs st'); simpl; split; done.
Qed.

(** X6 - The pagination controls are on screen exactly when the result
    panel is (there is a result and it shows no error) and the filtered
    list has more than one page. *)
Theorem controls_iff_several_pages (st : State) :
  controlsShown st = true
  ↔ (∃ p, renderResults st = Panel p) ∧ 1 < getTotalPages st.
Proof.
  pose proof (getTotalPages_bounds st) as HT. simpl in HT.
  unfold itemsPerPage in HT. unfold controlsShown, panelOf.
  assert (∀ r, paginationControls (renderPanel st r) = true ↔ 1 < getTotalPages st)
    as Hpanel.
  { intros r. simpl. unfold itemsPerPage. rewrite Z.ltb_lt. lia. }
  unfold renderResults.
  destruct (scanResults st) as [r|]; [|split; [done|by intros [[p [=]] _]]].
  destruct (error r) as [msg|].
  - destruct (truthyStr msg); [split; [done|by intros [[p [=]] _]]|].
    rewrite Hpanel. split; [by eauto|by intros [_ ?]].
  - rewrite Hpanel. split; [by eauto|by intros [_ ?]].
Qed.

Example controls_hidden_behind_error :
  let st := stateOf {| error := Some "boom"; summary := None;
                       stale_cis := Arr mixedCIs; grouped_by_owners := Missing |}
                    "all" 1 in
  controlsShown st = false ∧ getTotalPages st = 3.
Proof. vm_compute. auto. Qed.

(** X7 - On a page between 1 and [getTotalPages], the line "Showing X to
    Y of Z" names the rows on screen: the page is not empty, it holds
    [Y - X + 1] items, and these are the items at positions X to Y of the
    filtered list. *)
Theorem showing_range_names_the_rows (st : State) :
  1 ≤ currentPage st → currentPage st ≤ getTotalPages st →
  showingFrom st ≤ showingTo st
  ∧ Z.of_nat (length (getPaginatedCIs st)) = showingTo st - showingFrom st + 1
  ∧ getPaginatedCIs st
    = take (Z.to_nat (showingTo st - showingFrom st + 1))
           (drop (Z.to_nat (showingFrom st - 1)) (getFilteredCIs st)).
Proof.
  intros Hlo Hhi. pose proof (getTotalPages_bounds st) as HT. simpl in HT.
  unfold showingFrom, showingTo, itemsPerPage in *.
  rewrite getPaginatedCIs_pageOf, pageOf_window by done.
  set (items := getFilteredCIs st) in *.
  set (start := (currentPage st - 1) * 50).
  assert (start < Z.of_nat (length items)) by (unfold start; lia).
  assert (0 ≤ start) by (unfold start; lia).
  replace (start + 1 - 1) with start by lia.
  split; [lia|]. split.
  - rewrite length_take, length_drop. lia.
  - set (rest := drop (Z.to_nat start) items).
    assert (length rest = (length items - Z.to_nat start)%nat) as Hrest
      by (unfold rest; apply length_drop).
    destruct (Z.le_ge_cases (currentPage st * 50) (Z.of_nat (length items))).
    + rewrite Z.min_l by lia. f_equal. unfold start. lia.
    + rewrite Z.min_r by lia. rewrite !take_ge; [done|lia|lia].
Qed.

Lemma showing_range_names_the_rows_witness :
  Z.of_nat (length (getPaginatedCIs mixedOnLastPage))
  = showingTo mixedOnLastPage - showingFrom mixedOnLastPage + 1.
Proof.
  apply (showing_range_names_the_rows mixedOnLastPage);
    vm_compute; discriminate.
Defined.

Lemma pageNum_shift (st : State) (i : Z) : pageNum st i = pageNum st 0 + i.
Proof.
  unfold pageNum.
  destruct (getTotalPages st <=? 5), (currentPage st <=? 3),
    (getTotalPages st - 2 <=? currentPage st); lia.
Qed.

Lemma pageButtons_seqZ (st : State) :
  pageButtons st = seqZ (pageNum st 0) (Z.min 5 (getTotalPages st)).
Proof.
  unfold pageButtons. pose proof (getTotalPages_nonneg st).
  destruct (Z.ltb_spec 0 (getTotalPages st)).
  - rewrite <- (Z.add_0_r (pageNum st 0)) at 1. rewrite <- fmap_add_seqZ.
    apply list_fmap_ext. intros _ i _. apply pageNum_shift.
  - symmetry. apply seqZ_nil. lia.
Qed.

Lemma pageNum_first_bounds (st : State) :
  0 < getTotalPages st →
  1 ≤ pageNum st 0 ∧ pageNum st 0 + Z.min 5 (getTotalPages st) - 1 ≤ getTotalPages st.
Proof.
  intros HT. unfold pageNum.
  destruct (Z.leb_spec (getTotalPages st) 5), (Z.leb_spec (currentPage st) 3),
    (Z.leb_spec (getTotalPages st - 2) (currentPage st)); lia.
Qed.





(** X10 - On a page between 1 and [getTotalPages], a Next or Previous
    button that is not disabled moves by exactly one page and stays in
    that range, and a disabled one changes nothing. *)
Theorem enabled_buttons_move_one_page (st : State) :
  1 ≤ currentPage st → currentPage st ≤ getTotalPages st →
  (if nextDisabled st then goToNextPage st = st
   else currentPage (goToNextPage st) = currentPage st + 1
        ∧ currentPage st + 1 ≤ getTotalPages (goToNextPage st))
  ∧ (if prevDisabled st then goToPrevPage st = st
     else currentPage (goToPrevPage st) = currentPage st - 1
          ∧ 1 ≤ currentPage st - 1).
Proof.
  intros Hlo Hhi. unfold nextDisabled, prevDisabled, goToNextPage, goToPrevPage.
  split.
  - destruct (Z.eqb_spec (currentPage st) (getTotalPages st)) as [Heq|Hne].
    + rewrite Heq, Z.ltb_irrefl. reflexivity.
    + assert ((currentPage st <? getTotalPages st) = true) as -> by (apply Z.ltb_lt; lia).
      rewrite getTotalPages_goToPage. simpl. lia.
  - destruct (Z.eqb_spec (currentPage st) 1) as [Heq|Hne].
    + rewrite Heq. reflexivity.
    + assert ((1 <? currentPage st) = true) as -> by (apply Z.ltb_lt; lia).
      simpl. lia.
Qed.

Lemma enabled_buttons_move_one_page_witness :
  goToNextPage mixedOnLastPage = mixedOnLastPage
  ∧ currentPage (goToPrevPage mixedOnLastPage) = currentPage mixedOnLastPage - 1.
Proof.
  assert (1 ≤ currentPage mixedOnLastPage) as H1 by (vm_compute; discriminate).
  assert (currentPage mixedOnLastPage ≤ getTotalPages mixedOnLastPage) as H2
    by (vm_compute; discriminate).
  destruct (enabled_buttons_move_one_page mixedOnLastPage H1 H2) as [Hn Hp].
  split; [exact Hn|exact (proj1 Hp)].
Defined.

(** ** What the derived views depend on *)

Lemma getFilteredCIs_ext (st st' : State) :
  scanResults st = scanResults st' → activeFilter st = activeFilter st' →
  getFilteredCIs st = getFilteredCIs st'.
Proof. intros Hr Hf. unfold getFilteredCIs. by rewrite Hr, Hf. Qed.

Lemma getPaginatedCIs_ext (st st' : State) :
  scanResults st = scanResults st' → activeFilter st = activeFilter st' →
  currentPage st = currentPage st' → getPaginatedCIs st = getPaginatedCIs st'.
Proof.
  intros Hr Hf Hp. unfold getPaginatedCIs.
  by rewrite (getFilteredCIs_ext st st' Hr Hf), Hp.
Qed.

Lemma getTotalPages_ext (st st' : State) :
  scanResults st = scanResults st' → activeFilter st = activeFilter st' →
  getTotalPages st = getTotalPages st'.
Proof.
  intros Hr Hf. unfold getTotalPages. by rewrite (getFilteredCIs_ext st st' Hr Hf).
Qed.

Lemma paginated_in_filtered (st : State) (ci : CI) :
  ci ∈ getPaginatedCIs st → ci ∈ getFilteredCIs st.
Proof.
  unfold getPaginatedCIs, slice. intros Hin.
  by apply subseteq_take, subseteq_drop in Hin.
Qed.

Lemma rowsShown_paginated (st : State) (ci : CI) :
  ci ∈ rowsShown st → ci ∈ getPaginatedCIs st.
Proof.
  unfold rowsShown, panelOf, renderResults.
  destruct (scanResults st) as [r|]; [|by intros ?%elem_of_nil].
  assert (ci ∈ default [] (staleList (renderPanel st r)) → ci ∈ getPaginatedCIs st) as Hpanel.
  { simpl. destruct (truthy (stale_cis r) && lengthPositive (stale_cis r)); simpl;
      [done|by intros ?%elem_of_nil]. }
  destruct (error r) as [msg|]; [|exact Hpanel].
  destruct (truthyStr msg); [by intros ?%elem_of_nil|exact Hpanel].
Qed.

Lemma existsb_row_id (ciId : string) (f : CI → bool) (rows : list CI) :
  existsb (fun ci => String.eqb (ci_id ci) ciId && f ci) rows = true →
  ∃ ci, ci ∈ rows ∧ ci_id ci = ciId.
Proof.
  intros (ci & Hin & Hci)%List.existsb_exists.
  apply andb_true_iff in Hci as [Hid%String.eqb_eq _].
  exists ci. split; [by apply list_elem_of_In|done].
Qed.

Lemma pageButtons_in_range (st : State) (n : Z) :
  n ∈ pageButtons st → 1 ≤ n ≤ getTotalPages st.
Proof.
  rewrite pageButtons_seqZ. intros [Hlo Hhi]%elem_of_seqZ.
  pose proof (getTotalPages_nonneg st).
  destruct (pageNum_first_bounds st) as [H1 H2]; lia.
Qed.

Lemma page_in_range_not_empty (st : State) :
  1 ≤ currentPage st → currentPage st ≤ getTotalPages st →
  getPaginatedCIs st ≠ [].
Proof.
  intros Hlo Hhi Hnil. pose proof (getTotalPages_bounds st) as HT. simpl in HT.
  unfold itemsPerPage in HT.
  apply (f_equal length) in Hnil.
  rewrite getPaginatedCIs_pageOf, pageOf_window in Hnil by done.
  rewrite length_take, length_drop in Hnil. change (length (@nil CI)) with 0%nat in Hnil. lia.
Qed.

(** ** The invariant of the result view *)

Lemma viewStep_scanResults (e : Event) (st : State) :
  scanResults (viewStep e st) = scanResults st.
Proof.
  destruct e; simpl; try reflexivity.
  - destruct (panelOf st), (cardFilter title); reflexivity.
  - destruct (panelOf st); [|reflexivity].
    destruct (String.eqb (activeFilter st) "all"); reflexivity.
  - destruct (toggleShown st); reflexivity.
  - destruct (existsb _ (rowsShown st)); reflexivity.
  - destruct (alternatesButtonShown ciId st); reflexivity.
  - destruct (panelOf st); [|reflexivity].
    destruct (bool_decide (uniqueIds st)); reflexivity.
  - destruct (panelOf st); [|reflexivity].
    destruct (bool_decide (uniqueIds st)); reflexivity.
  - destruct (controlsShown st && negb (prevDisabled st)); [|reflexivity].
    unfold goToPrevPage. destruct (1 <? currentPage st); reflexivity.
  - destruct (controlsShown st && negb (nextDisabled st)); [|reflexivity].
    unfold goToNextPage. destruct (currentPage st <? getTotalPages st); reflexivity.
  - destruct (pageButtons st !! i); [|reflexivity].
    destruct (controlsShown st); reflexivity.
  - destruct (lastPageButton st); [|reflexivity].
    destruct (controlsShown st); reflexivity.
Qed.

Lemma uniqueIds_ext (st st' : State) :
  scanResults st' = scanResults st → uniqueIds st' → uniqueIds st.
Proof. unfold uniqueIds, staleItems. by intros ->. Qed.

(** *** Page and filter *)

Lemma pageFilter_first (st : State) :
  currentPage st = 1 → activeFilter st ∈ ["all"; "critical"; "high"] →
  pageInRange st ∧ filterFromCard st.
Proof.
  intros Hp Hf. split; [|exact Hf].
  unfold pageInRange. rewrite Hp. split; [lia|by left].
Qed.

Lemma pageFilter_same (st st' : State) :
  scanResults st' = scanResults st → activeFilter st' = activeFilter st →
  currentPage st' = currentPage st →
  pageInRange st ∧ filterFromCard st → pageInRange st' ∧ filterFromCard st'.
Proof.
  intros Hr Hf Hp [Hpage Hfilter]. split.
  - unfold pageInRange. by rewrite Hp, (getTotalPages_ext st' st).
  - unfold filterFromCard. by rewrite Hf.
Qed.

Lemma pageFilter_goToPage (n : Z) (st : State) :
  1 ≤ n → n ≤ getTotalPages st →
  pageInRange st ∧ filterFromCard st →
  pageInRange (goToPage n st) ∧ filterFromCard (goToPage n st).
Proof.
  intros Hlo Hhi [_ Hfilter]. split; [|exact Hfilter].
  unfold pageInRange. rewrite getTotalPages_goToPage. simpl. lia.
Qed.

Lemma cardFilter_values (title filter : string) :
  cardFilter title = Some filter → filter ∈ ["all"; "critical"; "high"].
Proof.
  unfold cardFilter.
  destruct (String.eqb title "Stale Found"); [intros [= <-]; apply list_elem_of_here|].
  destruct (String.eqb title "Critical Risk");
    [intros [= <-]; apply list_elem_of_further, list_elem_of_here|].
  destruct (String.eqb title "High Risk"); [|done].
  intros [= <-]. apply list_elem_of_further, list_elem_of_further, list_elem_of_here.
Qed.

Lemma viewStep_pageFilter (e : Event) (st : State) :
  pageInRange st ∧ filterFromCard st →
  pageInRange (viewStep e st) ∧ filterFromCard (viewStep e st).
Proof.
  intros Hinv. destruct e; simpl; try exact Hinv.
  - destruct (panelOf st); [|done].
    destruct (cardFilter title) as [filter|] eqn:Hcard; [|done].
    apply pageFilter_first; [reflexivity|]. by apply (cardFilter_values title).
  - destruct (panelOf st); [|done].
    destruct (String.eqb (activeFilter st) "all"); [done|].
    apply pageFilter_first; [reflexivity|apply list_elem_of_here].
  - destruct (toggleShown st); [|done]. by apply (pageFilter_same st).
  - destruct (existsb _ (rowsShown st)); [|done]. by apply (pageFilter_same st).
  - destruct (alternatesButtonShown ciId st); [|done]. by apply (pageFilter_same st).
  - destruct (panelOf st); [|done].
    destruct (bool_decide (uniqueIds st)); [done|]. by apply (pageFilter_same st).
  - destruct (panelOf st); [|done].
    destruct (bool_decide (uniqueIds st)); [done|]. by apply (pageFilter_same st).
  - destruct (controlsShown st && negb (prevDisabled st)); [|done].
    unfold goToPrevPage. destruct (Z.ltb_spec 1 (currentPage st)); [|done].
    apply pageFilter_goToPage; [lia| |done].
    destruct Hinv as [[? [?|?]] _]; lia.
  - destruct (controlsShown st && negb (nextDisabled st)); [|done].
    unfold goToNextPage.
    destruct (Z.ltb_spec (currentPage st) (getTotalPages st)); [|done].
    apply pageFilter_goToPage; [|lia|done]. destruct Hinv as [[? _] _]; lia.
  - destruct (pageButtons st !! i) as [page|] eqn:Hbutton; [|done].
    destruct (controlsShown st); [|done].
    assert (page ∈ pageButtons st) as Hin by (apply list_elem_of_lookup; eauto).
    apply pageButtons_in_range in Hin. apply pageFilter_goToPage; [lia|lia|done].
  - destruct (lastPageButton st) as [page|] eqn:Hlast; [|done].
    destruct (controlsShown st); [|done].
    unfold lastPageButton in Hlast.
    destruct (Z.ltb_spec 5 (getTotalPages st)); [|done].
    destruct (currentPage st <? getTotalPages st - 2); [|done].
    injection Hlast as <-. apply pageFilter_goToPage; [lia|lia|done].
Qed.

(** *** Selection, when the keys of the rows are distinct *)

Lemma selection_reset (st : State) :
  expandedCI st = None → expandedAlternates st = ∅ →
  expandedOnPage st ∧ alternatesListed st.
Proof.
  intros He Ha. split; intros ciId.
  - by rewrite He.
  - rewrite Ha. by intros ?%elem_of_empty.
Qed.

Lemma selection_same (st st' : State) :
  scanResults st' = scanResults st → activeFilter st' = activeFilter st →
  currentPage st' = currentPage st →
  expandedAlternates st' = expandedAlternates st →
  expandedCI st' = expandedCI st ∨ expandedCI st' = None →
  expandedOnPage st ∧ alternatesListed st →
  expandedOnPage st' ∧ alternatesListed st'.
Proof.
  intros Hr Hf Hp Ha He [Hexp Halt]. split; intros ciId.
  - intros Hid. rewrite (getPaginatedCIs_ext st' st) by done.
    destruct He as [He|He]; rewrite He in Hid; [by apply Hexp|done].
  - rewrite Ha, (getFilteredCIs_ext st' st) by done. apply Halt.
Qed.

Lemma selection_goToPage (n : Z) (st : State) :
  expandedOnPage st ∧ alternatesListed st →
  expandedOnPage (goToPage n st) ∧ alternatesListed (goToPage n st).
Proof. intros [_ Halt]. split; [by intros ciId|exact Halt]. Qed.

Lemma selection_toggleCIExpansion (ciId : string) (st : State) :
  ciId ∈ ci_id <$> getPaginatedCIs st →
  expandedOnPage st ∧ alternatesListed st →
  expandedOnPage (toggleCIExpansion ciId st)
  ∧ alternatesListed (toggleCIExpansion ciId st).
Proof.
  intros Hrow [Hexp Halt]. split; [|exact Halt].
  intros other. unfold toggleCIExpansion. simpl.
  case_decide; [done|]. intros [= <-]. exact Hrow.
Qed.

Lemma selection_toggleAlternates (ciId : string) (st : State) :
  ciId ∈ ci_id <$> getFilteredCIs st →
  expandedOnPage st ∧ alternatesListed st →
  expandedOnPage (toggleAlternateRecommendations ciId st)
  ∧ alternatesListed (toggleAlternateRecommendations ciId st).
Proof.
  intros Hrow [Hexp Halt]. split; [exact Hexp|].
  intros other. unfold toggleAlternateRecommendations. simpl.
  case_decide.
  - intros [Hin _]%elem_of_difference. by apply Halt.
  - intros [Hin | ->%elem_of_singleton]%elem_of_union; [by apply Halt|exact Hrow].
Qed.

Lemma viewStep_selection (e : Event) (st : State) :
  uniqueIds st →
  expandedOnPage st ∧ alternatesListed st →
  expandedOnPage (viewStep e st) ∧ alternatesListed (viewStep e st).
Proof.
  intros Huniq Hsel. destruct e; simpl; try exact Hsel.
  - destruct (panelOf st); [|done].
    destruct (cardFilter title); [|done]. by apply selection_reset.
  - destruct (panelOf st); [|done].
    destruct (String.eqb (activeFilter st) "all"); [done|]. by apply selection_reset.
  - destruct (toggleShown st); [|done].
    apply (selection_same st); try reflexivity; [by left|done].
  - destruct (existsb _ (rowsShown st)) eqn:Hrow; [|done].
    apply selection_toggleCIExpansion; [|done].
    apply List.existsb_exists in Hrow as (ci & Hin & Hid%String.eqb_eq).
    apply list_elem_of_fmap. exists ci. split; [done|].
    apply rowsShown_paginated. by apply list_elem_of_In.
  - destruct (alternatesButtonShown ciId st) eqn:Hshown; [|done].
    apply selection_toggleAlternates; [|done].
    unfold alternatesButtonShown in Hshown.
    apply andb_true_iff in Hshown as [_ (ci & Hin & Hid)%existsb_row_id].
    apply list_elem_of_fmap. exists ci. split; [done|].
    by apply paginated_in_filtered, rowsShown_paginated.
  - destruct (panelOf st); [|done]. by rewrite bool_decide_eq_true_2.
  - destruct (panelOf st); [|done]. by rewrite bool_decide_eq_true_2.
  - destruct (controlsShown st && negb (prevDisabled st)); [|done].
    unfold goToPrevPage. destruct (1 <? currentPage st); [|done].
    by apply selection_goToPage.
  - destruct (controlsShown st && negb (nextDisabled st)); [|done].
    unfold goToNextPage. destruct (currentPage st <? getTotalPages st); [|done].
    by apply selection_goToPage.
  - destruct (pageButtons st !! i); [|done].
    destruct (controlsShown st); [|done]. by apply selection_goToPage.
  - destruct (lastPageButton st); [|done].
    destruct (controlsShown st); [|done]. by apply selection_goToPage.
Qed.

(** *** Both together *)

Lemma viewStep_invariant (e : Event) (st : State) :
  viewInvariant st → viewInvariant (viewStep e st).
Proof.
  intros (Hpage & Hfilter & Hsel).
  destruct (viewStep_pageFilter e st (conj Hpage Hfilter)) as [Hpage' Hfilter'].
  split; [exact Hpage'|]. split; [exact Hfilter'|].
  intros Huniq.
  assert (uniqueIds st) as Huniq0
    by (apply (uniqueIds_ext st (viewStep e st)); [apply viewStep_scanResults|done]).
  apply viewStep_selection; [done|by apply Hsel].
Qed.

Lemma viewInvariant_reset (st : State) :
  currentPage st = 1 → activeFilter st ∈ ["all"; "critical"; "high"] →
  expandedCI st = None → expandedAlternates st = ∅ → viewInvariant st.
Proof.
  intros Hp Hf He Ha. destruct (pageFilter_first st Hp Hf) as [Hpage Hfilter].
  split; [exact Hpage|]. split; [exact Hfilter|].
  intros _. by apply selection_reset.
Qed.

Lemma viewInvariant_installResults (r : ScanResults) (st : State) :
  viewInvariant (installResults r st).
Proof. apply viewInvariant_reset; try reflexivity. apply list_elem_of_here. Qed.

Lemma viewInvariant_startScan (st : State) :
  viewInvariant st → viewInvariant (setExpandedCI None (clearResults st)).
Proof.
  intros (Hpage & Hfilter & Hsel). unfold clearResults.
  destruct (scanResults st) as [r|] eqn:Hr.
  - apply viewInvariant_reset; try reflexivity. apply list_elem_of_here.
  - destruct (pageFilter_same st (setExpandedCI None st) eq_refl eq_refl eq_refl
                (conj Hpage Hfilter)) as [Hpage' Hfilter'].
    split; [exact Hpage'|]. split; [exact Hfilter'|]. intros Huniq.
    apply (selection_same st); try reflexivity; [by right|]. by apply Hsel.
Qed.

Lemma progressTick_in_range (s : Session) :
  progressInRange s →
  progressTick (scanProgress s) = 100
  ∨ (0 ≤ progressTick (scanProgress s) ≤ 90 ∧ (15 | progressTick (scanProgress s))).
Proof.
  unfold progressInRange, progressTick. intros [-> | [Hb [k Hk]]].
  - right. simpl. split; [lia|]. by exists 6.
  - right. destruct (Z.leb_spec 90 (scanProgress s)).
    + split; [lia|]. by exists 6.
    + split; [lia|]. exists (k + 1). lia.
Qed.

Lemma step_invariant (e : Event) (s : Session) :
  sessionInvariant s → sessionInvariant (step e s).
Proof.
  intros [Hview Hprog].
  assert (sessionInvariant (withView (viewStep e (view s)) s)) as Hother
    by (split; [by apply viewStep_invariant|exact Hprog]).
  destruct e; try exact Hother; simpl.
  - destruct (isScanning s || negb (connected s)); [by split|].
    split; [by apply viewInvariant_startScan|]. right. simpl.
    split; [lia|]. by exists 0.
  - split; [done|]. by apply progressTick_in_range.
  - destruct (isScanning s); [|by split].
    split; [apply viewInvariant_installResults|].
    destruct resp; simpl; [by left|by left|exact Hprog].
  - destruct (isScanning s); [|by split].
    split; [apply viewInvariant_installResults|by left].
Qed.

Lemma initial_invariant : sessionInvariant initialSession.
Proof.
  split.
  - apply viewInvariant_reset; try reflexivity. apply list_elem_of_here.
  - right. simpl. split; [lia|]. by exists 0.
Qed.

Lemma run_invariant (events : list Event) (s : Session) :
  sessionInvariant s → sessionInvariant (run events s).
Proof.
  revert s. induction events as [|e events IH]; intros s Hinv; [done|].
  simpl. apply IH. by apply step_invariant.
Qed.

Example sampleEvents_end :
  let st := view (run sampleEvents initialSession) in
  currentPage st = 2 ∧ expandedCI st = Some "ci-mail"
  ∧ length (getPaginatedCIs st) = 50%nat.
Proof. vm_compute. auto. Qed.

(** ** Every session that can be reached *)

(** X11 - Whatever the user clicks and whatever the service answers, the
    current page is 1 or a page between 1 and [getTotalPages]: the page on
    screen is empty only when the filtered list is. *)
Theorem reachable_page_is_in_range (events : list Event) :
  let st := view (run events initialSession) in
  1 ≤ currentPage st
  ∧ (currentPage st = 1 ∨ currentPage st ≤ getTotalPages st)
  ∧ (getPaginatedCIs st = [] ↔ getFilteredCIs st = []).
Proof.
  intros st.
  destruct (run_invariant events initialSession initial_invariant)
    as [([Hlo Hhi] & _) _]. fold st in Hlo, Hhi.
  split; [exact Hlo|]. split; [exact Hhi|]. split.
  - intros Hpage. destruct (getFilteredCIs st) as [|ci cis] eqn:Hitems; [done|].
    exfalso. pose proof (getTotalPages_bounds st) as HT. simpl in HT.
    rewrite Hitems in HT. unfold itemsPerPage in HT. cbn [length] in HT.
    apply (page_in_range_not_empty st); [done|lia|done].
  - intros Hitems. destruct (getPaginatedCIs st) as [|ci cis] eqn:Hpage; [done|].
    assert (ci ∈ getFilteredCIs st) as Hin
      by (apply paginated_in_filtered; rewrite Hpage; apply list_elem_of_here).
    rewrite Hitems in Hin. by apply elem_of_nil in Hin.
Qed.

(** X12 - The active filter is always one a summary card carries: [all],
    [critical] or [high]; the list is never filtered by medium or low
    risk. *)
Theorem reachable_filter_is_from_a_card (events : list Event) :
  let st := view (run events initialSession) in
  activeFilter st ∈ ["all"; "critical"; "high"]
  ∧ activeFilter st ≠ filterKey Medium ∧ activeFilter st ≠ filterKey Low.
Proof.
  intros st.
  destruct (run_invariant events initialSession initial_invariant)
    as [(_ & Hfilter & _) _]. fold st in Hfilter. unfold filterFromCard in Hfilter.
  split; [exact Hfilter|].
  split; intros Heq; rewrite Heq in Hfilter;
    repeat (apply elem_of_cons in Hfilter as [Hfilter|Hfilter]; [discriminate|]);
    by apply elem_of_nil in Hfilter.
Qed.

(** X13 - When the stale CIs of the result have pairwise distinct ids,
    the expanded CI, if any, is a row of the page on screen. *)
Theorem expanded_ci_is_on_screen (events : list Event) (ciId : string) :
  let st := view (run events initialSession) in
  uniqueIds st →
  expandedCI st = Some ciId → ciId ∈ ci_id <$> getPaginatedCIs st.
Proof.
  intros st Huniq.
  destruct (run_invariant events initialSession initial_invariant)
    as [(_ & _ & Hsel) _]. by apply Hsel.
Qed.

Lemma distinctEvents_uniqueIds :
  uniqueIds (view (run distinctEvents initialSession)).
Proof.
  unfold uniqueIds.
  assert (staleItems (view (run distinctEvents initialSession)) = fourCIs) as ->
    by (vm_compute; reflexivity).
  apply (bool_decide_unpack _). vm_compute. exact I.
Qed.

Lemma expanded_ci_is_on_screen_witness :
  expandedCI (view (run distinctEvents initialSession)) = Some "ci-web"
  ∧ "ci-web" ∈ ci_id <$> getPaginatedCIs (view (run distinctEvents initialSession)).
Proof.
  assert (expandedCI (view (run distinctEvents initialSession)) = Some "ci-web") as H
    by (vm_compute; reflexivity).
  split; [exact H|].
  exact (expanded_ci_is_on_screen distinctEvents "ci-web" distinctEvents_uniqueIds H).
Defined.

(** Without distinct ids the page can hold rows of an earlier render: a
    click on a row left over from page 1 expands a CI that page 2 does
    not list. *)
Example stale_row_expands_off_page :
  let st := view (run (sampleEvents ++ [ClickStaleRow "ci-web" None]) initialSession) in
  expandedCI st = Some "ci-web" ∧ "ci-web" ∉ ci_id <$> getPaginatedCIs st.
Proof.
  split; [vm_compute; reflexivity|].
  intros (ci & Hid & Hin)%list_elem_of_fmap.
  assert (Forall (fun ci => ci_id ci ≠ "ci-web")
            (getPaginatedCIs
               (view (run (sampleEvents ++ [ClickStaleRow "ci-web" None]) initialSession))))
    as Hall
    by (vm_compute; repeat (apply List.Forall_cons; [discriminate|]);
        apply List.Forall_nil).
  rewrite Forall_forall in Hall. specialize (Hall ci Hin). congruence.
Qed.

(** X14 - When the stale CIs of the result have pairwise distinct ids,
    every CI whose alternates are open is a CI of the filtered list
    (though, after a change of page, not always of the page on
    screen). *)
Theorem open_alternates_are_listed (events : list Event) (ciId : string) :
  let st := view (run events initialSession) in
  uniqueIds st →
  ciId ∈ expandedAlternates st → ciId ∈ ci_id <$> getFilteredCIs st.
Proof.
  intros st Huniq.
  destruct (run_invariant events initialSession initial_invariant)
    as [(_ & _ & Hsel) _]. by apply Hsel.
Qed.

Lemma distinctEvents_alternates :
  "ci-web" ∈ expandedAlternates (view (run distinctEvents initialSession)).
Proof.
  assert (expandedAlternates (view (run distinctEvents initialSession))
          = expandedAlternates
              (toggleAlternateRecommendations "ci-web" initialState)) as ->
    by (vm_compute; reflexivity).
  unfold toggleAlternateRecommendations. simpl.
  case_decide as Hin; [by apply elem_of_empty in Hin|].
  apply elem_of_union. right. by apply elem_of_singleton.
Qed.

Lemma open_alternates_are_listed_witness :
  "ci-web" ∈ ci_id <$> getFilteredCIs (view (run distinctEvents initialSession)).
Proof.
  apply (open_alternates_are_listed distinctEvents "ci-web").
  - exact distinctEvents_uniqueIds.
  - exact distinctEvents_alternates.
Defined.

(** X15 - The progress shown is always between 0 and 100. *)
Theorem progress_is_a_percentage (events : list Event) :
  0 ≤ scanProgress (run events initialSession) ≤ 100.
Proof.
  destruct (run_invariant events initialSession initial_invariant)
    as [_ [Hdone|[Hbounds _]]]; lia.
Qed.

(** ** Connection test and scan *)

Lemma orDefaultStr_not_empty (e : option string) (d : string) :
  d ≠ "" → orDefaultStr e d ≠ "".
Proof.
  intros Hd. unfold orDefaultStr. destruct e as [[|c s]|]; simpl; done.
Qed.

Lemma testConnection_success (form : gmap string string) (resp : TestResponse) :
  success (snd (testConnection form resp)) = true →
  acceptedTest (TestConnection resp) = true.
Proof.
  unfold testConnection.
  destruct (negb (filled form "instanceUrl") || negb (filled form "username")
            || negb (filled form "password")); [done|].
  destruct resp as [ok rs m e|]; simpl; [|done].
  by destruct (ok && rs).
Qed.

(** X18 - A connection test sends a request exactly when the three
    fields are filled in; it succeeds exactly when, besides, the service
    answers OK with [success]; and every failure carries a message that
    is not empty. *)
Theorem testConnection_outcomes (form : gmap string string) (resp : TestResponse) :
  let complete := filled form "instanceUrl" && filled form "username"
                  && filled form "password" in
  let status := snd (testConnection form resp) in
  (fst (testConnection form resp)
   = if complete then Some (requestBody form) else None)
  ∧ (success status = true
     ↔ complete = true ∧ ∃ m e, resp = TestAnswered true true m e)
  ∧ (success status = false → ∃ msg, message status = Some msg ∧ msg ≠ "").
Proof.
  unfold testConnection.
  destruct (filled form "instanceUrl"), (filled form "username"),
    (filled form "password"); simpl;
    try (split; [reflexivity|split; [split; [done|by intros [? _]]|]];
         intros _; eexists; split; [reflexivity|done]).
  split; [reflexivity|].
  destruct resp as [[] [] m e|]; simpl.
  - split; [split; [by eauto|done]|done].
  - split; [split; [done|intros [_ (? & ? & [=])]]|].
    intros _. eexists. split; [reflexivity|]. by apply orDefaultStr_not_empty.
  - split; [split; [done|intros [_ (? & ? & [=])]]|].
    intros _. eexists. split; [reflexivity|]. by apply orDefaultStr_not_empty.
  - split; [split; [done|intros [_ (? & ? & [=])]]|].
    intros _. eexists. split; [reflexivity|]. by apply orDefaultStr_not_empty.
  - split; [split; [done|intros [_ (? & ? & [=])]]|].
    intros _. eexists. split; [reflexivity|done].
Qed.

Lemma testConnection_outcomes_witness :
  ∃ msg, message (snd (testConnection emptyForm TestNetworkFailure)) = Some msg
         ∧ msg ≠ "".
Proof.
  apply (testConnection_outcomes emptyForm TestNetworkFailure). reflexivity.
Defined.

(** X19 - What is typed into the three fields is what the connection
    test sends: after typing a non-empty URL, user name and password, in
    any earlier state of the form, the request carries exactly these
    three values. *)
Theorem typed_credentials_are_sent
    (url user password : string) (s : Session) (resp : TestResponse) :
  url ≠ "" → user ≠ "" → password ≠ "" →
  fst (testConnection (formData (run (typeCredentials url user password) s)) resp)
  = Some {| instance_url := url; body_username := user; body_password := password |}.
Proof.
  intros Hurl Huser Hpw. simpl. unfold handleInputChange, testConnection, filled, requestBody.
  rewrite lookup_insert_eq.
  rewrite (lookup_insert_ne _ "password" "username"), lookup_insert_eq by done.
  rewrite (lookup_insert_ne _ "password" "instanceUrl") by done.
  rewrite (lookup_insert_ne _ "username" "instanceUrl"), lookup_insert_eq by done.
  destruct url, user, password; done.
Qed.

Lemma typed_credentials_are_sent_witness :
  fst (testConnection
         (formData (run (typeCredentials "https://dev.service-now.com" "admin" "secret")
                        initialSession))
         TestNetworkFailure)
  = Some {| instance_url := "https://dev.service-now.com";
            body_username := "admin"; body_password := "secret" |}.
Proof.
  apply (typed_credentials_are_sent "https://dev.service-now.com" "admin" "secret");
    discriminate.
Defined.

Lemma step_neverConnected (e : Event) (s : Session) :
  acceptedTest e = false → neverConnected s → neverConnected (step e s).
Proof.
  intros Hacc (Hconn & Hscan & Hres).
  assert (neverConnected (withView (viewStep e (view s)) s)) as Hother.
  { split; [exact Hconn|]. split; [exact Hscan|]. simpl.
    by rewrite viewStep_scanResults. }
  destruct e; try exact Hother; simpl.
  - split; [|exact (conj Hscan Hres)]. unfold connected. simpl.
    destruct (success (snd (testConnection (formData s) resp))) eqn:Hs; [|done].
    apply testConnection_success in Hs. congruence.
  - rewrite Hscan, Hconn. exact (conj Hconn (conj Hscan Hres)).
  - rewrite Hscan. exact (conj Hconn (conj Hscan Hres)).
  - rewrite Hscan. exact (conj Hconn (conj Hscan Hres)).
Qed.

(** X17 - Without a connection test that the service accepted, no scan
    ever starts and no result or error of a scan is ever on screen. *)
Theorem no_scan_without_accepted_test (events : list Event) :
  Forall (fun e => acceptedTest e = false) events →
  let s := run events initialSession in
  isScanning s = false ∧ scanResults (view s) = None
  ∧ renderResults (view s) = NoResults.
Proof.
  intros Hall.
  assert (neverConnected (run events initialSession)) as (_ & Hscan & Hres).
  { assert (neverConnected initialSession) as Hinit by (by repeat split).
    revert Hinit. generalize initialSession.
    induction Hall as [|e events He _ IH]; intros s Hs; [done|].
    simpl. apply IH. by apply step_neverConnected. }
  simpl. split; [exact Hscan|]. split; [exact Hres|].
  unfold renderResults. by rewrite Hres.
Qed.

Lemma no_scan_without_accepted_test_witness :
  renderResults (view (run refusedEvents initialSession)) = NoResults.
Proof.
  apply (no_scan_without_accepted_test refusedEvents).
  repeat constructor.
Defined.
